(** * Alternative-drug recommendation: the pipeline of [app.py]

    A shallow embedding of the data-processing part of [app.py] (text
    normalisation, dosage extraction, the table built at start-up and
    [recommend_alternatives]) together with the properties the
    specification states about it.

    Conventions.
    - A Python [str] is a Rocq [string]; one [ascii] stands for one code
      point below 256, so [lower], [strip], [\s] and [\d] are the
      restrictions of the Python operations to that range.
    - An absent cell (pandas NaN / None) is [None].
    - The [price] column is [option Q]: [None] is the NaN that
      [pd.to_numeric(..., errors="coerce")] stores for a missing value,
      a known price is a rational number; of prices only their order is
      used.
    - The names of a data set are strings in [load] (the [name] column
      is read by [.str.lower()] and by [extract_dosage], which calls
      [text.lower()]); [load_checked] reads a file whose names may be
      absent and agrees with [load] when the kept lines have names. *)

From Stdlib Require Import Bool Arith List ZArith QArith Lia.
From Stdlib Require Import Ascii String Permutation Sorted OrderedTypeEx.
Import ListNotations.

Local Close Scope Q_scope.
Local Open Scope nat_scope.
Local Open Scope list_scope.
Local Open Scope string_scope.

(* ================================================================== *)
(** ** Characters *)

Module Char.

Local Open Scope nat_scope.

Definition code (c : ascii) : nat := nat_of_ascii c.

Definition between (lo hi : nat) (c : ascii) : bool :=
  (lo <=? code c) && (code c <=? hi).

(** [\d] of [re] on code points below 256: the decimal digits. *)
Definition is_digit (c : ascii) : bool := between 48 57 c.

(** [\s] of [re] and the characters [str.strip()] removes
    ([str.isspace]): TAB..CR, FS..US, SPACE, NEL and NBSP. *)
Definition is_space (c : ascii) : bool :=
  between 9 13 c || between 28 32 c || (code c =? 133) || (code c =? 160).

(** The character set of the pattern [[()\[\],]]. *)
Definition is_bracket (c : ascii) : bool :=
  (code c =? 40) || (code c =? 41) || (code c =? 91) || (code c =? 93)
  || (code c =? 44).

(** Upper-case code points below 256: A..Z and the Latin-1 capitals
    (U+00C0..U+00DE without the multiplication sign U+00D7). *)
Definition is_upper (c : ascii) : bool :=
  between 65 90 c || (between 192 222 c && negb (code c =? 215)).

(** [str.lower()] on one character. *)
Definition lower (c : ascii) : ascii :=
  if is_upper c then ascii_of_nat (code c + 32) else c.

Definition space : ascii := " "%char.

Definition not_space (c : ascii) : bool := negb (is_space c).

Definition not_digit (c : ascii) : bool := negb (is_digit c).

Definition not_upper (c : ascii) : bool := negb (is_upper c).

Definition not_bracket (c : ascii) : bool := negb (is_bracket c).

End Char.

(* ================================================================== *)
(** ** Strings *)

Module Str.

Fixpoint map (f : ascii -> ascii) (s : string) : string :=
  match s with
  | EmptyString => EmptyString
  | String c s' => String (f c) (map f s')
  end.

Fixpoint all (p : ascii -> bool) (s : string) : bool :=
  match s with
  | EmptyString => true
  | String c s' => p c && all p s'
  end.

Fixpoint drop_while (p : ascii -> bool) (s : string) : string :=
  match s with
  | EmptyString => EmptyString
  | String c s' => if p c then drop_while p s' else s
  end.

Fixpoint take_while (p : ascii -> bool) (s : string) : string :=
  match s with
  | EmptyString => EmptyString
  | String c s' => if p c then String c (take_while p s') else EmptyString
  end.

(** Does the string start with a character of the set [p]? *)
Definition starts (p : ascii -> bool) (s : string) : bool :=
  match s with
  | EmptyString => false
  | String c _ => p c
  end.

(** [s.lower()] *)
Definition lower (s : string) : string := map Char.lower s.

(** [s.lstrip()], [s.rstrip()], [s.strip()] *)
Definition lstrip (s : string) : string := drop_while Char.is_space s.

Fixpoint rstrip (s : string) : string :=
  match s with
  | EmptyString => EmptyString
  | String c s' =>
      match rstrip s' with
      | EmptyString => if Char.is_space c then EmptyString
                       else String c EmptyString
      | t => String c t
      end
  end.

Definition strip (s : string) : string := rstrip (lstrip s).

(** [key in s] for two strings: the test behind
    [Series.str.contains(key, regex=False)]. *)
Fixpoint contains (s key : string) : bool :=
  prefix key s ||
  match s with
  | EmptyString => false
  | String _ s' => contains s' key
  end.

(** [sep.join(ls)] is [String.concat sep ls]. *)
Definition join (sep : string) (ls : list string) : string :=
  String.concat sep ls.

End Str.

(* ================================================================== *)
(** ** The fragment of [re] used by [app.py]

    The three patterns of the program are built from character sets,
    concatenation, ordered alternation and greedy repetition of a
    character set.  [run] is the backtracking matcher of [re] for this
    fragment: it tries the alternatives from left to right, a repetition
    takes as many characters as it can and gives them back one at a time
    when the rest of the pattern fails. *)

Module Re.

Inductive regex : Type :=
| Eps
| Cls (p : ascii -> bool)
| Seq (r1 r2 : regex)
| Alt (r1 r2 : regex)
| Star (p : ascii -> bool).

Definition Plus (p : ascii -> bool) : regex := Seq (Cls p) (Star p).

Definition Chr (c : ascii) : regex := Cls (Ascii.eqb c).

(** A literal: the characters of [s] one after the other. *)
Fixpoint Lit (s : string) : regex :=
  match s with
  | EmptyString => Eps
  | String c s' => Seq (Chr c) (Lit s')
  end.

(** [run r s k]: match [r] at the start of [s], then hand what is left
    to the continuation [k]; the answer is what is left of [s] after
    the whole match. *)
Fixpoint run (r : regex) (s : string) (k : string -> option string)
  {struct r} : option string :=
  match r with
  | Eps => k s
  | Cls p =>
      match s with
      | String c s' => if p c then k s' else None
      | EmptyString => None
      end
  | Seq r1 r2 => run r1 s (fun s' => run r2 s' k)
  | Alt r1 r2 =>
      match run r1 s k with
      | Some rest => Some rest
      | None => run r2 s k
      end
  | Star p =>
      (fix star (t : string) : option string :=
         match t with
         | String c t' =>
             if p c then
               match star t' with
               | Some rest => Some rest
               | None => k t
               end
             else k t
         | EmptyString => k t
         end) s
  end.

(** The match of [r] anchored at the start of [s]: what follows it. *)
Definition match_at (r : regex) (s : string) : option string :=
  run r s (@Some string).

(** One left-to-right pass over the subject: each character is either
    outside every match ([Gap]) or the first character of a match
    ([Hit], which carries the matched text); the characters inside a
    match are passed over ([skip] counts how many are left).  The
    patterns of the program match no empty string; a zero-width
    result is treated as no match. *)
Inductive piece : Type :=
| Gap (c : ascii)
| Hit (m : string).

Fixpoint scan (r : regex) (s : string) (skip : nat) : list piece :=
  match s with
  | EmptyString => []
  | String c s' =>
      match skip with
      | S n => scan r s' n
      | O =>
          match match_at r s with
          | Some rest =>
              match (String.length s - String.length rest)%nat with
              | O => Gap c :: scan r s' 0
              | S n as len => Hit (substring 0 len s) :: scan r s' n
              end
          | None => Gap c :: scan r s' 0
          end
      end
  end.

(** [re.findall(r, s)] for a pattern without groups. *)
Fixpoint hits (ps : list piece) : list string :=
  match ps with
  | [] => []
  | Gap _ :: ps' => hits ps'
  | Hit m :: ps' => m :: hits ps'
  end.

Definition findall (r : regex) (s : string) : list string :=
  hits (scan r s 0).

(** [re.sub(r, repl, s)] for a replacement without back-references. *)
Fixpoint subst (repl : string) (ps : list piece) : string :=
  match ps with
  | [] => EmptyString
  | Gap c :: ps' => String c (subst repl ps')
  | Hit _ :: ps' => repl ++ subst repl ps'
  end.

Definition sub (r : regex) (repl s : string) : string :=
  subst repl (scan r s 0).

End Re.

(* ================================================================== *)
(** ** The two text functions of [app.py] *)

(** [r"[()\[\],]"] *)
Definition bracket_re : Re.regex := Re.Cls Char.is_bracket.

(** [r"\s+"] *)
Definition spaces_re : Re.regex := Re.Plus Char.is_space.

(** [r"\d+\s*mg|\d+\s*ml|\d+\s*mcg"] *)
Definition dose_alt (unit : string) : Re.regex :=
  Re.Seq (Re.Plus Char.is_digit)
         (Re.Seq (Re.Star Char.is_space) (Re.Lit unit)).

Definition dosage_re : Re.regex :=
  Re.Alt (dose_alt "mg") (Re.Alt (dose_alt "ml") (dose_alt "mcg")).

(** [[
def clean_composition(text):
    if pd.isna(text):
        return ""
    text = text.lower()
    text = re.sub(r"[()\[\],]", " ", text)
    text = re.sub(r"\s+", " ", text).strip()
    return text
]] *)
Definition clean_composition (text : option string) : string :=
  match text with
  | None => ""
  | Some text =>
      let text := Str.lower text in
      let text := Re.sub bracket_re " " text in
      let text := Str.strip (Re.sub spaces_re " " text) in
      text
  end.

(** [[
def extract_dosage(text):
    return " ".join(
        re.findall(r"\d+\s*mg|\d+\s*ml|\d+\s*mcg", text.lower()))
]] *)
Definition extract_dosage (text : string) : string :=
  Str.join " " (Re.findall dosage_re (Str.lower text)).

(* ================================================================== *)
(** ** Reference functions for the text layer

    Direct recursive descriptions of what the three patterns do; the
    lemmas below show that the matcher computes them. *)

(** The replacement made by [re.sub(r"[()\[\],]", " ", .)], character by
    character. *)
Definition bracket_to_space (c : ascii) : ascii :=
  if Char.is_bracket c then Char.space else c.

(** Every maximal run of whitespace becomes one space: a whitespace
    character is dropped when another one follows it and written as a
    space otherwise. *)
Fixpoint collapse (s : string) : string :=
  match s with
  | EmptyString => EmptyString
  | String c s' =>
      if Char.is_space c then
        if Str.starts Char.is_space s' then collapse s'
        else String Char.space (collapse s')
      else String c (collapse s')
  end.

(** The maximal whitespace-free pieces of a string, in order
    (Python's [s.split()]). *)
Fixpoint words (s : string) : list string :=
  match s with
  | EmptyString => []
  | String c s' =>
      if Char.is_space c then words s'
      else if Str.starts Char.not_space s' then
        match words s' with
        | w :: ws => String c w :: ws
        | [] => [String c EmptyString]
        end
      else String c EmptyString :: words s'
  end.

(** What is left of [s] after the literal [u], when [s] starts with it. *)
Fixpoint strip_prefix (u s : string) : option string :=
  match u with
  | EmptyString => Some s
  | String c u' =>
      match s with
      | String d s' => if Ascii.eqb c d then strip_prefix u' s' else None
      | EmptyString => None
      end
  end.

(** One alternative of the dosage pattern anchored at the start of [s]:
    all the digits, all the whitespace after them, then the unit. *)
Definition dose_at (unit s : string) : option string :=
  if Str.starts Char.is_digit s then
    strip_prefix unit
      (Str.drop_while Char.is_space (Str.drop_while Char.is_digit s))
  else None.

Definition units : list string := ["mg"; "ml"; "mcg"].

(** [k] is a substring of [s]. *)
Definition is_substring (k s : string) : Prop :=
  exists a b : string, s = a ++ k ++ b.

(** The normalisation of a composition in the words of the
    specification: absent gives the empty string; otherwise lower-case,
    brackets and commas to spaces, whitespace runs to one space, no
    whitespace at either end. *)
Definition normalize_composition_spec (text : option string) : string :=
  match text with
  | None => ""
  | Some s =>
      Str.join " " (words (Str.map bracket_to_space (Str.lower s)))
  end.

(* ================================================================== *)
(** ** Values of the pandas layer *)

(** A Python exception. *)
Inductive exn : Type := Exception (msg : string).

Inductive res (A : Type) : Type :=
| Ok (a : A)
| Raise (e : exn).
Arguments Ok {A} a.
Arguments Raise {A} e.

(** A row of the frame [recommend_alternatives] returns: the columns
    [["name", "clean_composition", "price"]]. *)
Record alt : Type := Alt {
  alt_name : string;
  alt_clean_composition : string;
  alt_price : option Q
}.

(** The order of [sort_values(by="price", ascending=True)]: numbers by
    size, NaN after every number ([na_position="last"]). *)
Definition price_le (a b : option Q) : Prop :=
  match a, b with
  | Some x, Some y => (x <= y)%Q
  | None, Some _ => False
  | _, None => True
  end.

Definition price_leb (a b : option Q) : bool :=
  match a, b with
  | Some x, Some y => Qle_bool x y
  | None, Some _ => false
  | _, None => true
  end.

Definition by_price (a b : alt) : Prop := price_le (alt_price a) (alt_price b).

(** What the program uses of pandas without containing it: the parser
    behind [pd.to_numeric] and the sort behind [sort_values].  Of the
    sort only its contract is used: the result is a rearrangement of the
    rows, ascending by price with NaN last; the order of rows of equal
    price is left to the library. *)
Class Pandas : Type := {
  to_float : string -> option Q;
  sort_values : list alt -> list alt;
  sort_values_perm : forall l, Permutation (sort_values l) l;
  sort_values_sorted : forall l, StronglySorted by_price (sort_values l)
}.

(** The three artefacts loaded with [joblib.load]: the vectoriser, the
    classifier and the label encoder.  Each call may raise. *)
Class Model : Type := {
  vector : Type;
  class_id : Type;
  tfidf_transform : string -> res vector;
  model_predict : vector -> res class_id;
  label_inverse_transform : class_id -> res Z
}.

(** A line of the CSV file as [pd.read_csv] delivers it. *)
Module Csv.
Record row : Type := Row {
  name : string;
  short_composition1 : option string;
  short_composition2 : option string;
  price : option string
}.
End Csv.

(** A row of the frame [df] after the start-up code has run. *)
Module Col.
Record row : Type := Row {
  name : string;
  short_composition1 : option string;
  short_composition2 : option string;
  price : option Q;
  composition : string;
  clean_composition : string;
  clean_name : string;
  dosage : string;
  drug_group : Z
}.
End Col.

(** What a call of [recommend_alternatives] does: return [None], return
    a frame, or let an exception escape. *)
Inductive outcome : Type :=
| ReturnNone
| ReturnFrame (rows : list alt)
| Raises (e : exn).

(** [frame.head(n)], which is [frame.iloc[:n]]: the first [n] rows for
    [n >= 0], all but the last [-n] rows for [n < 0]. *)
Definition head {A : Type} (n : Z) (l : list A) : list A :=
  if (0 <=? n)%Z then firstn (Z.to_nat n) l
  else firstn (List.length l - Z.to_nat (- n)) l.

(** [Series.astype("category")]: the categories are the distinct values
    in increasing order; [.cat.codes] is the position of each value among
    them. *)
Fixpoint insert_category (x : string) (cats : list string) : list string :=
  match cats with
  | [] => [x]
  | y :: cats' =>
      match String.compare x y with
      | Lt => x :: cats
      | Eq => cats
      | Gt => y :: insert_category x cats'
      end
  end.

Definition categories (col : list string) : list string :=
  fold_right insert_category [] col.

Fixpoint code_of (x : string) (cats : list string) (i : Z) : Z :=
  match cats with
  | [] => (-1)%Z
  | y :: cats' => if (x =? y)%string then i else code_of x cats' (i + 1)%Z
  end.

(* ================================================================== *)
(** ** The start-up code and [recommend_alternatives] *)

Section Program.

Context {pandas : Pandas} {model : Model}.

(** [pd.to_numeric(df["price"], errors="coerce")] on one cell. *)
Definition to_numeric (cell : option string) : option Q :=
  match cell with
  | None => None
  | Some s => to_float s
  end.

Definition fillna (cell : option string) : string :=
  match cell with
  | None => ""
  | Some s => s
  end.

(** [df["short_composition1"].fillna("") + " " +
     df["short_composition2"].fillna("")] *)
Definition composition_of (r : Csv.row) : string :=
  fillna (Csv.short_composition1 r) ++ " " ++ fillna (Csv.short_composition2 r).

Definition clean_composition_of (r : Csv.row) : string :=
  clean_composition (Some (composition_of r)).

(** [df = df[df["clean_composition"] != ""]] *)
Definition kept (r : Csv.row) : bool :=
  negb (clean_composition_of r =? "")%string.

Definition derive (cats : list string) (r : Csv.row) : Col.row :=
  {| Col.name := Csv.name r;
     Col.short_composition1 := Csv.short_composition1 r;
     Col.short_composition2 := Csv.short_composition2 r;
     Col.price := to_numeric (Csv.price r);
     Col.composition := composition_of r;
     Col.clean_composition := clean_composition_of r;
     Col.clean_name := Str.strip (Str.lower (Csv.name r));
     Col.dosage := extract_dosage (Csv.name r);
     Col.drug_group := code_of (clean_composition_of r) cats 0 |}.

(** The frame [df] once lines 16 to 59 of [app.py] have run. *)
Definition load (csv : list Csv.row) : list Col.row :=
  let rows := filter kept csv in
  let cats := categories (map clean_composition_of rows) in
  map (derive cats) rows.

(** [tfidf.transform([comp])], [model.predict(vec)[0]],
    [label_encoder.inverse_transform([pred_group])[0]] *)
Definition predict_group (comp : string) : res Z :=
  match tfidf_transform comp with
  | Raise e => Raise e
  | Ok vec =>
      match model_predict vec with
      | Raise e => Raise e
      | Ok pred_group => label_inverse_transform pred_group
      end
  end.

(** [df[df["clean_name"].str.contains(key, regex=False)]] *)
Definition matches (df : list Col.row) (key : string) : list Col.row :=
  filter (fun r => Str.contains (Col.clean_name r) key) df.

(** The mask of the second selection. *)
Definition is_alternative (row : Col.row) (real_group : Z) (r : Col.row)
  : bool :=
  (Col.drug_group r =? real_group)%Z
  && (Col.dosage r =? Col.dosage row)%string
  && negb (Col.clean_name r =? Col.clean_name row)%string.

Definition candidates (df : list Col.row) (row : Col.row) (real_group : Z)
  : list Col.row :=
  filter (is_alternative row real_group) df.

(** [[["name", "clean_composition", "price"]]] *)
Definition project (r : Col.row) : alt :=
  {| alt_name := Col.name r;
     alt_clean_composition := Col.clean_composition r;
     alt_price := Col.price r |}.

(** The part of [recommend_alternatives] after [row = matches.iloc[0]]. *)
Definition alternatives_for (df : list Col.row) (row : Col.row) (top_n : Z)
  : outcome :=
  let comp := Col.clean_composition row in
  match predict_group comp with
  | Raise e => Raises e
  | Ok real_group =>
      let alternatives := map project (candidates df row real_group) in
      match alternatives with
      | [] => ReturnNone
      | _ :: _ => ReturnFrame (head top_n (sort_values alternatives))
      end
  end.

(** [[
def recommend_alternatives(medicine_name, top_n=10):
    key = medicine_name.lower().strip()
    matches = df[df["clean_name"].str.contains(key, regex=False)]
    if matches.empty:
        return None
    row = matches.iloc[0]
    comp = row["clean_composition"]
    dosage = row["dosage"]
    vec = tfidf.transform([comp])
    pred_group = model.predict(vec)[0]
    real_group = label_encoder.inverse_transform([pred_group])[0]
    alternatives = df[
        (df["drug_group"] == real_group) &
        (df["dosage"] == dosage) &
        (df["clean_name"] != row["clean_name"])
    ][["name", "clean_composition", "price"]]
    if alternatives.empty:
        return None
    alternatives = alternatives.sort_values(by="price", ascending=True)
    return alternatives.head(top_n).reset_index(drop=True)
]]
    The frame [df] is an argument here; [top_n] is given at every call. *)
Definition recommend_alternatives (df : list Col.row)
  (medicine_name : string) (top_n : Z) : outcome :=
  let key := Str.strip (Str.lower medicine_name) in
  match matches df key with
  | [] => ReturnNone
  | row :: _ => alternatives_for df row top_n
  end.

End Program.

(** [row] is the first row of [df], in the order of the table, whose
    [clean_name] has [key] as a substring. *)
Definition first_match (key : string) (df : list Col.row) (row : Col.row)
  : Prop :=
  exists pre post : list Col.row,
    df = (pre ++ row :: post)%list /\
    is_substring key (Col.clean_name row) /\
    forall r, In r pre -> ~ is_substring key (Col.clean_name r).

(** [r] is in the group [real_group], has the dosage of [row] and another
    [clean_name]. *)
Definition alternative_of (row : Col.row) (real_group : Z) (r : Col.row)
  : Prop :=
  Col.drug_group r = real_group /\
  Col.dosage r = Col.dosage row /\
  Col.clean_name r <> Col.clean_name row.

(* ================================================================== *)
(** ** The page of [app.py]

    The part of the Streamlit script that reads the two widgets and
    reacts to the button. *)

(** What the main area shows after one run of the script with the
    button pressed: [st.warning], [st.error], [st.success] followed by
    one card for each row of the frame, or the exception that left
    [recommend_alternatives]. *)
Inductive page : Type :=
| ShowWarning
| ShowError (medicine_input : string)
| ShowResults (medicine_input : string) (count : nat) (cards : list alt)
| ShowException (e : exn).

Section Page.

Context {pandas : Pandas} {model : Model}.

(** [[
medicine_input = st.text_input(...).strip()
top_n = st.slider(..., min_value=1, max_value=20, value=5)
search_btn = st.button(...)
if search_btn:
    if not medicine_input:
        st.warning(...)
    else:
        results = recommend_alternatives(medicine_input, top_n)
        if results is None or results.empty:
            st.error(...)
        else:
            st.success(f"Found {len(results)} alternatives ...")
            for i, row in results.iterrows(): ...
]]
    [text] is what the text box holds and [top_n] what the slider
    gives; the result is [None] when the button was not pressed. *)
Definition script (df : list Col.row) (search_btn : bool) (text : string)
  (top_n : Z) : option page :=
  let medicine_input := Str.strip text in
  if search_btn then
    if (medicine_input =? "")%string then Some ShowWarning
    else
      match recommend_alternatives df medicine_input top_n with
      | ReturnNone => Some (ShowError medicine_input)
      | ReturnFrame [] => Some (ShowError medicine_input)
      | ReturnFrame ((_ :: _) as results) =>
          Some (ShowResults medicine_input (List.length results) results)
      | Raises e => Some (ShowException e)
      end
  else None.

End Page.

(** The range of the slider. *)
Definition slider_value (top_n : Z) : Prop := (1 <= top_n <= 20)%Z.

(* ================================================================== *)
(** ** The start-up code on a file whose cells may all be absent

    [pd.read_csv] gives NaN for an empty cell of any column, the [name]
    column included.  [load_checked] follows lines 16 to 59 on such a
    file and records where they can raise. *)

Module RawCsv.
Record row : Type := Row {
  name : option string;
  short_composition1 : option string;
  short_composition2 : option string;
  price : option string
}.
End RawCsv.

(** The [errors] argument of [pd.to_numeric]. *)
Inductive errors_mode : Type :=
| ErrorsRaise
| ErrorsCoerce.

(** A function that may raise, applied to the cells of a column from
    the first to the last. *)
Fixpoint traverse {A B : Type} (f : A -> res B) (l : list A) : res (list B) :=
  match l with
  | [] => Ok []
  | x :: l' =>
      match f x with
      | Raise e => Raise e
      | Ok y =>
          match traverse f l' with
          | Raise e => Raise e
          | Ok ys => Ok (y :: ys)
          end
      end
  end.

Section Startup.

Context {pandas : Pandas}.

(** [pd.to_numeric(., errors=...)] on one cell: NaN stays NaN; a text
    that is no number raises under [errors="raise"] and becomes NaN
    under [errors="coerce"]. *)
Definition to_numeric_cell (errors : errors_mode) (cell : option string)
  : res (option Q) :=
  match cell with
  | None => Ok None
  | Some s =>
      match to_float s with
      | Some q => Ok (Some q)
      | None =>
          match errors with
          | ErrorsRaise => Raise (Exception "Unable to parse string")
          | ErrorsCoerce => Ok None
          end
      end
  end.

Definition pd_to_numeric (errors : errors_mode) (col : list (option string))
  : res (list (option Q)) :=
  traverse (to_numeric_cell errors) col.

Definition raw_composition (r : RawCsv.row) : string :=
  fillna (RawCsv.short_composition1 r) ++ " "
  ++ fillna (RawCsv.short_composition2 r).

Definition raw_kept (r : RawCsv.row) : bool :=
  negb (clean_composition (Some (raw_composition r)) =? "")%string.

(** The columns derived from [name] at lines 43 and 53.  On a NaN,
    [df["name"].apply(extract_dosage)] calls [text.lower()] on a float
    and raises. *)
Definition build_row (cats : list string) (rp : RawCsv.row * option Q)
  : res Col.row :=
  let r := fst rp in
  match RawCsv.name r with
  | None => Raise (Exception "'float' object has no attribute 'lower'")
  | Some name =>
      Ok {| Col.name := name;
            Col.short_composition1 := RawCsv.short_composition1 r;
            Col.short_composition2 := RawCsv.short_composition2 r;
            Col.price := snd rp;
            Col.composition := raw_composition r;
            Col.clean_composition :=
              clean_composition (Some (raw_composition r));
            Col.clean_name := Str.strip (Str.lower name);
            Col.dosage := extract_dosage name;
            Col.drug_group :=
              code_of (clean_composition (Some (raw_composition r))) cats 0 |}
  end.

(** Lines 16 to 59: the price column is coerced (line 19), the lines
    with an empty [clean_composition] are dropped (line 38), then the
    columns that read [name] are added to the lines that are left. *)
Definition load_checked (raw : list RawCsv.row) : res (list Col.row) :=
  match pd_to_numeric ErrorsCoerce (map RawCsv.price raw) with
  | Raise e => Raise e
  | Ok prices =>
      let rows := filter (fun rp => raw_kept (fst rp)) (combine raw prices) in
      let cats :=
        categories
          (map (fun rp => clean_composition (Some (raw_composition (fst rp))))
               rows) in
      traverse (build_row cats) rows
  end.

(** A line whose name is read as a string (the empty one when absent). *)
Definition typed (r : RawCsv.row) : Csv.row :=
  {| Csv.name := fillna (RawCsv.name r);
     Csv.short_composition1 := RawCsv.short_composition1 r;
     Csv.short_composition2 := RawCsv.short_composition2 r;
     Csv.price := RawCsv.price r |}.

End Startup.


(* ================================================================== *)
(** ** Notions used to state further properties *)

(** A character that [clean_composition] reads as whitespace. *)
Definition is_blank (c : ascii) : bool :=
  Char.is_space c || Char.is_bracket c.

(** The shape of one match of the dosage pattern: digits, whitespace,
    unit. *)
Definition dosage_token (t : string) : Prop :=
  exists ds ws u : string,
    t = ds ++ ws ++ u /\ ds <> "" /\
    Str.all Char.is_digit ds = true /\
    Str.all Char.is_space ws = true /\ In u units.

(** The order in which pandas sorts the categories: the comparison of
    Python strings, code point by code point. *)
Definition str_lt (a b : string) : Prop := String.compare a b = Lt.

(** [df["clean_composition"].astype("category").cat.categories] *)
Definition table_categories (df : list Col.row) : list string :=
  categories (map Col.clean_composition df).

(* ================================================================== *)
(** ** A small data set

    A parser that reads unsigned decimal integers, an insertion sort,
    two classifiers and eight lines of CSV, used to run the program on
    concrete tables. *)

Module Sample.

Fixpoint digits_value (s : string) (acc : N) : N :=
match s with
| EmptyString => acc
| String c s' => digits_value s' (acc * 10 + (N_of_ascii c - 48))%N
end.

Definition parse_decimal (s : string) : option Q :=
match s with
| EmptyString => None
| String _ _ =>
    if Str.all Char.is_digit s
    then Some (inject_Z (Z.of_N (digits_value s 0)))
    else None
end.

Fixpoint insert_by_price (x : alt) (l : list alt) : list alt :=
match l with
| [] => [x]
| y :: l' =>
    if price_leb (alt_price x) (alt_price y) then x :: l
    else y :: insert_by_price x l'
end.

Definition insertion_sort (l : list alt) : list alt :=
fold_right insert_by_price [] l.

(** A classifier that looks the composition up in a list and raises on
  a composition it has not seen. *)
Fixpoint lookup (known : list (string * Z)) (comp : string) : res Z :=
match known with
| [] => Raise (Exception "unseen composition")
| (c, g) :: known' => if (c =? comp)%string then Ok g else lookup known' comp
end.

Definition table_model (known : list (string * Z)) : Model :=
{| vector := string;
   class_id := Z;
   tfidf_transform := fun comp => Ok comp;
   model_predict := lookup known;
   label_inverse_transform := fun g => Ok g |}.

Definition good_model : Model :=
table_model [("paracetamol", 1%Z);
             ("ambroxol 30mg/5ml levosalbutamol 1mg/5ml", 0%Z)].

(** A vectoriser that rejects every input. *)
Definition broken_model : Model :=
{| vector := string;
   class_id := Z;
   tfidf_transform := fun _ => Raise (Exception "vectorizer not fitted");
   model_predict := fun _ => Ok 0%Z;
   label_inverse_transform := fun g => Ok g |}.

Definition csv : list Csv.row :=
[ Csv.Row "Paracetamol 500mg" (Some "Paracetamol") None (Some "10");
  Csv.Row "Crocin 500mg" (Some "Paracetamol") None (Some "8");
  Csv.Row "Paracetamol 650mg" (Some "Paracetamol") None (Some "12");
  Csv.Row "Dolo 500 mg" (Some "Paracetamol") None (Some "7");
  Csv.Row "Calpol 500mg" (Some "Paracetamol") None (Some "N/A");
  Csv.Row "Unlabelled 500mg" None None (Some "3");
  Csv.Row "Pacimol 500mg" (Some "Paracetamol") None (Some "9");
  Csv.Row "Ascoril LS Syrup 5ml" (Some "Ambroxol (30mg/5ml)")
          (Some "Levosalbutamol (1mg/5ml)") None ].

End Sample.

(** The same eight lines with cells that may be absent, and the file
    that has one more line, without a name. *)
Module RawSample.

Definition csv : list RawCsv.row :=
  [ RawCsv.Row (Some "Paracetamol 500mg") (Some "Paracetamol") None (Some "10");
    RawCsv.Row (Some "Crocin 500mg") (Some "Paracetamol") None (Some "8");
    RawCsv.Row (Some "Paracetamol 650mg") (Some "Paracetamol") None (Some "12");
    RawCsv.Row (Some "Dolo 500 mg") (Some "Paracetamol") None (Some "7");
    RawCsv.Row (Some "Calpol 500mg") (Some "Paracetamol") None (Some "N/A");
    RawCsv.Row (Some "Unlabelled 500mg") None None (Some "3");
    RawCsv.Row (Some "Pacimol 500mg") (Some "Paracetamol") None (Some "9");
    RawCsv.Row (Some "Ascoril LS Syrup 5ml") (Some "Ambroxol (30mg/5ml)")
               (Some "Levosalbutamol (1mg/5ml)") None ].


End RawSample.

(* ================================================================== *)
(** ** Facts about characters *)

Module CharFacts.

Ltac by_cases c :=
  destruct c as [[] [] [] [] [] [] [] []]; vm_compute;
  solve [ reflexivity | discriminate | intros; discriminate
        | intros; reflexivity ].

Lemma digit_not_space c : Char.is_digit c = true -> Char.is_space c = false.
Proof. by_cases c. Qed.

Lemma lower_digit c : Char.is_digit (Char.lower c) = Char.is_digit c.
Proof. by_cases c. Qed.

Lemma lower_space c : Char.is_space (Char.lower c) = Char.is_space c.
Proof. by_cases c. Qed.

Lemma lower_bracket c : Char.is_bracket (Char.lower c) = Char.is_bracket c.
Proof. by_cases c. Qed.

Lemma lower_fix_digit c : Char.is_digit c = true -> Char.lower c = c.
Proof. by_cases c. Qed.

Lemma lower_fix_space c : Char.is_space c = true -> Char.lower c = c.
Proof. by_cases c. Qed.

Lemma lower_not_upper c : Char.is_upper (Char.lower c) = false.
Proof. by_cases c. Qed.

Lemma space_is_space : Char.is_space Char.space = true.
Proof. reflexivity. Qed.

Lemma bracket_to_space_not_bracket c :
  Char.is_bracket (bracket_to_space c) = false.
Proof. by_cases c. Qed.

Lemma bracket_to_space_not_upper c :
  Char.is_upper c = false -> Char.is_upper (bracket_to_space c) = false.
Proof. by_cases c. Qed.

End CharFacts.

(* ================================================================== *)
(** ** Facts about strings *)

Module StrFacts.

Lemma app_nil_r (s : string) : s ++ "" = s.
Proof. induction s; simpl; congruence. Qed.

Lemma app_assoc (a b c : string) : (a ++ b) ++ c = a ++ b ++ c.
Proof. induction a; simpl; congruence. Qed.

Lemma length_app (a b : string) :
  String.length (a ++ b) = String.length a + String.length b.
Proof. induction a; simpl; congruence. Qed.

Lemma app_inv_head (a b c : string) : a ++ b = a ++ c -> b = c.
Proof. induction a; simpl; intros H; [assumption | inversion H; auto]. Qed.

Lemma app_inv_tail (a b t : string) : a ++ t = b ++ t -> a = b.
Proof.
  revert b; induction a as [|c a IH]; intros [|d b] H; simpl in *.
  - reflexivity.
  - apply (f_equal String.length) in H; simpl in H.
    rewrite length_app in H; lia.
  - apply (f_equal String.length) in H; simpl in H.
    rewrite length_app in H; lia.
  - inversion H; subst; f_equal; auto.
Qed.

Lemma map_app f (a b : string) : Str.map f (a ++ b) = Str.map f a ++ Str.map f b.
Proof. induction a; simpl; congruence. Qed.

Lemma lower_app (a b : string) :
  Str.lower (a ++ b) = Str.lower a ++ Str.lower b.
Proof. apply map_app. Qed.

Lemma map_fix f p (s : string) :
  (forall c, p c = true -> f c = c) -> Str.all p s = true -> Str.map f s = s.
Proof.
  intros Hf; induction s as [|c s IH]; simpl; intros H; [reflexivity|].
  apply andb_true_iff in H as [Hc Hs]. rewrite Hf, IH; auto.
Qed.

Lemma all_map p f (s : string) :
  (forall c, p (f c) = p c) -> Str.all p (Str.map f s) = Str.all p s.
Proof. intros Hf; induction s; simpl; [reflexivity | rewrite Hf; congruence]. Qed.

Lemma drop_while_app p (a b : string) :
  Str.all p a = true -> Str.starts p b = false ->
  Str.drop_while p (a ++ b) = b.
Proof.
  induction a as [|c a IH]; simpl; intros Ha Hb.
  - destruct b as [|d b]; simpl in *; [reflexivity | now rewrite Hb].
  - apply andb_true_iff in Ha as [Hc Ha]. rewrite Hc; auto.
Qed.

Lemma drop_while_id p (s : string) :
  Str.starts p s = false -> Str.drop_while p s = s.
Proof. destruct s; simpl; [reflexivity | now intros ->]. Qed.

Lemma starts_drop_while p (s : string) :
  Str.starts p (Str.drop_while p s) = false.
Proof.
  induction s as [|c s IH]; simpl; [reflexivity|].
  destruct (p c) eqn:E; [assumption | simpl; assumption].
Qed.

Lemma take_drop_while p (s : string) :
  Str.take_while p s ++ Str.drop_while p s = s.
Proof.
  induction s as [|c s IH]; simpl; [reflexivity|].
  destruct (p c); simpl; congruence.
Qed.

Lemma all_take_while p (s : string) : Str.all p (Str.take_while p s) = true.
Proof.
  induction s as [|c s IH]; simpl; [reflexivity|].
  destruct (p c) eqn:E; simpl; [now rewrite E | reflexivity].
Qed.

Lemma length_drop_while p (s : string) :
  String.length (Str.drop_while p s) <= String.length s.
Proof.
  induction s as [|c s IH]; simpl; [lia|]. destruct (p c); simpl; lia.
Qed.

Lemma substring_app (a b : string) : substring 0 (String.length a) (a ++ b) = a.
Proof. induction a; simpl; [destruct b; reflexivity | congruence]. Qed.

Lemma starts_app p (a b : string) :
  a <> "" -> Str.starts p (a ++ b) = Str.starts p a.
Proof. destruct a; simpl; congruence. Qed.

Lemma all_starts p (a : string) :
  a <> "" -> Str.all p a = true -> Str.starts p a = true.
Proof.
  destruct a; simpl; [congruence|]. intros _ H.
  now apply andb_true_iff in H as [H _].
Qed.

(** [Str.contains] decides [is_substring]. *)
Lemma prefix_app (k s : string) :
  prefix k s = true <-> exists b, s = k ++ b.
Proof.
  revert s; induction k as [|c k IH]; intros s.
  - split; [exists s; reflexivity | destruct s; reflexivity].
  - destruct s as [|d s]; simpl.
    + split; [discriminate | intros [b Hb]; discriminate].
    + destruct (ascii_dec c d) as [->|Hn].
      * rewrite IH. split; intros [b Hb]; exists b.
        -- now subst.
        -- now inversion Hb.
      * split; [discriminate | intros [b Hb]; inversion Hb; congruence].
Qed.

Lemma contains_nil (k : string) : Str.contains "" k = prefix k "" || false.
Proof. reflexivity. Qed.

Lemma contains_cons c (s k : string) :
  Str.contains (String c s) k = prefix k (String c s) || Str.contains s k.
Proof. reflexivity. Qed.

Lemma contains_spec (s k : string) :
  Str.contains s k = true <-> is_substring k s.
Proof.
  induction s as [|c s IH].
  - rewrite contains_nil, orb_false_r, prefix_app. split.
    + intros [b Hb]. exists "", b. exact Hb.
    + intros [a [b H]]. destruct a; [exists b; exact H | discriminate].
  - rewrite contains_cons, orb_true_iff, prefix_app, IH. split.
    + intros [[b Hb] | [a [b H]]].
      * exists "", b. exact Hb.
      * exists (String c a), b. simpl. now rewrite H.
    + intros [[|d a] [b H]]; simpl in H.
      * left. now exists b.
      * right. inversion H; subst. now exists a, b.
Qed.

Lemma contains_empty (s : string) : Str.contains s "" = true.
Proof. apply contains_spec. exists "", s. reflexivity. Qed.

Lemma lstrip_spaces (s : string) :
  Str.all Char.is_space s = true -> Str.lstrip s = "".
Proof.
  induction s as [|c s IH]; simpl; [reflexivity|].
  intros H; apply andb_true_iff in H as [Hc Hs].
  unfold Str.lstrip in *; simpl. now rewrite Hc; auto.
Qed.

Lemma strip_spaces (s : string) :
  Str.all Char.is_space s = true -> Str.strip s = "".
Proof. intros H. unfold Str.strip. now rewrite lstrip_spaces. Qed.

End StrFacts.

(* ================================================================== *)
(** ** Facts about the matcher *)

Module ReFacts.

Import StrFacts.

Lemma run_star_nil p k : Re.run (Re.Star p) "" k = k "".
Proof. reflexivity. Qed.

Lemma run_star_cons p k c (s : string) :
  Re.run (Re.Star p) (String c s) k =
  if p c then
    match Re.run (Re.Star p) s k with
    | Some rest => Some rest
    | None => k (String c s)
    end
  else k (String c s).
Proof. reflexivity. Qed.

(** A greedy repetition followed by something that accepts what is left
    after the longest run takes the longest run. *)
Lemma run_star_some p k (s rest : string) :
  k (Str.drop_while p s) = Some rest -> Re.run (Re.Star p) s k = Some rest.
Proof.
  induction s as [|c s IH]; intros H; [exact H|].
  rewrite run_star_cons. cbn [Str.drop_while] in H.
  destruct (p c); [|exact H]. now rewrite IH.
Qed.

(** When what follows a repetition cannot start with a character of
    the repeated set, giving characters back never helps. *)
Lemma run_star_none p k (s : string) :
  (forall t, Str.starts p t = true -> k t = None) ->
  Re.run (Re.Star p) s k = k (Str.drop_while p s).
Proof.
  intros Hk. induction s as [|c s IH]; [reflexivity|].
  rewrite run_star_cons. cbn [Str.drop_while].
  destruct (p c) eqn:Hc; [|reflexivity].
  rewrite IH. destruct (k (Str.drop_while p s)); [reflexivity|].
  apply Hk. exact Hc.
Qed.

Lemma run_lit (u s : string) k :
  Re.run (Re.Lit u) s k =
  match strip_prefix u s with Some rest => k rest | None => None end.
Proof.
  revert s; induction u as [|c u IH]; intros s; simpl; [reflexivity|].
  destruct s as [|d s]; [reflexivity|].
  destruct (Ascii.eqb c d); [apply IH | reflexivity].
Qed.

Lemma strip_prefix_app (u rest : string) : strip_prefix u (u ++ rest) = Some rest.
Proof. induction u; simpl; [reflexivity | now rewrite Ascii.eqb_refl]. Qed.

Lemma strip_prefix_starts p (u s : string) :
  Str.starts p s = true -> Str.starts p u = false -> u <> "" ->
  strip_prefix u s = None.
Proof.
  destruct u as [|c u]; [congruence|]. destruct s as [|d s]; [reflexivity|].
  simpl. intros Hd Hc _.
  destruct (Ascii.eqb_spec c d) as [->|]; [congruence | reflexivity].
Qed.

(** *** The pass over the subject *)

Lemma scan_skip r (a b : string) :
  Re.scan r (a ++ b) (String.length a) = Re.scan r b 0.
Proof. induction a; simpl; [destruct b; reflexivity | assumption]. Qed.

Lemma scan_hit r (m rest : string) :
  m <> "" -> Re.match_at r (m ++ rest) = Some rest ->
  Re.scan r (m ++ rest) 0 = Re.Hit m :: Re.scan r rest 0.
Proof.
  destruct m as [|c m]; [congruence|]. intros _ H.
  change (String c m ++ rest) with (String c (m ++ rest)) in *.
  cbn [Re.scan]. rewrite H.
  replace (String.length (String c (m ++ rest)) - String.length rest)
    with (S (String.length m))
    by (cbn [String.length]; rewrite length_app; lia).
  f_equal.
  - f_equal. apply (substring_app (String c m) rest).
  - apply scan_skip.
Qed.

Lemma scan_gap r c (s : string) :
  Re.match_at r (String c s) = None ->
  Re.scan r (String c s) 0 = Re.Gap c :: Re.scan r s 0.
Proof. intros H. cbn [Re.scan]. now rewrite H. Qed.

(** *** [re.sub(r"[()\[\],]", " ", .)] *)

Lemma sub_bracket (s : string) :
  Re.sub bracket_re " " s = Str.map bracket_to_space s.
Proof.
  unfold Re.sub. induction s as [|c s IH]; [reflexivity|].
  unfold bracket_to_space at 1. cbn [Str.map].
  destruct (Char.is_bracket c) eqn:Hc.
  - change (String c s) with (String c "" ++ s).
    rewrite (scan_hit bracket_re (String c "") s); [|discriminate|].
    + cbn [Re.subst]. simpl. now rewrite IH.
    + unfold Re.match_at, bracket_re. simpl. now rewrite Hc.
  - rewrite scan_gap.
    + cbn [Re.subst]. now rewrite IH.
    + unfold Re.match_at, bracket_re. simpl. now rewrite Hc.
Qed.

(** *** [re.sub(r"\s+", " ", .)] *)

Lemma match_spaces (s : string) :
  Re.match_at spaces_re s =
  if Str.starts Char.is_space s
  then Some (Str.drop_while Char.is_space s) else None.
Proof.
  unfold Re.match_at, spaces_re, Re.Plus. cbn [Re.run].
  destruct s as [|c s]; [reflexivity|]. cbn [Str.starts Str.drop_while].
  destruct (Char.is_space c); [|reflexivity].
  now apply run_star_some.
Qed.

Lemma collapse_run (a b : string) :
  a <> "" -> Str.all Char.is_space a = true ->
  Str.starts Char.is_space b = false ->
  collapse (a ++ b) = String Char.space (collapse b).
Proof.
  induction a as [|c a IH]; [congruence|]. intros _ Ha Hb.
  simpl in Ha. apply andb_true_iff in Ha as [Hc Ha].
  change (String c a ++ b) with (String c (a ++ b)). cbn [collapse].
  rewrite Hc. destruct a as [|d a].
  - simpl. now rewrite Hb.
  - rewrite starts_app by discriminate.
    rewrite (all_starts Char.is_space (String d a)) by (discriminate || assumption).
    apply IH; [discriminate | assumption | assumption].
Qed.

Lemma sub_spaces_bounded (n : nat) (s : string) :
  String.length s <= n -> Re.sub spaces_re " " s = collapse s.
Proof.
  unfold Re.sub. revert s; induction n as [|n IH]; intros s Hn.
  - destruct s; [reflexivity | simpl in Hn; lia].
  - destruct s as [|c s]; [reflexivity|].
    destruct (Char.is_space c) eqn:Hc.
    + pose proof (match_spaces (String c s)) as Hm.
      cbn [Str.starts] in Hm. rewrite Hc in Hm.
      pose proof (take_drop_while Char.is_space (String c s)) as Hsplit.
      set (a := Str.take_while Char.is_space (String c s)) in *.
      set (b := Str.drop_while Char.is_space (String c s)) in *.
      assert (Ha : a <> "") by (unfold a; simpl; rewrite Hc; discriminate).
      rewrite <- Hsplit in Hm |- *.
      rewrite (scan_hit spaces_re a b Ha Hm). cbn [Re.subst].
      rewrite collapse_run;
        [| exact Ha | apply all_take_while | apply starts_drop_while ].
      rewrite IH; [reflexivity|].
      assert (String.length b <= String.length s).
      { unfold b. cbn [Str.drop_while]. rewrite Hc.
        apply length_drop_while. }
      simpl in Hn. lia.
    + rewrite scan_gap.
      * cbn [Re.subst collapse]. rewrite Hc. f_equal.
        apply IH. simpl in Hn. lia.
      * rewrite match_spaces. simpl. now rewrite Hc.
Qed.

Lemma sub_spaces (s : string) : Re.sub spaces_re " " s = collapse s.
Proof. apply (sub_spaces_bounded (String.length s)). lia. Qed.

End ReFacts.

(* ================================================================== *)
(** ** The dosage pattern *)

Module DosageFacts.

Import StrFacts ReFacts.

(** One alternative [\d+\s*unit] takes all the digits and all the
    whitespace: no shorter choice can be followed by the unit. *)
Lemma match_dose_alt (u s : string) :
  u <> "" -> Str.starts Char.is_digit u = false ->
  Str.starts Char.is_space u = false ->
  Re.match_at (dose_alt u) s = dose_at u s.
Proof.
  intros Hu Hd Hs. unfold Re.match_at, dose_alt, Re.Plus, dose_at.
  set (K2 := fun t => Re.run (Re.Lit u) t (@Some string)).
  set (K1 := fun t => Re.run (Re.Star Char.is_space) t K2).
  change (Re.run _ s _)
    with (Re.run (Re.Cls Char.is_digit) s
            (fun s' => Re.run (Re.Star Char.is_digit) s' K1)).
  destruct s as [|c s]; [reflexivity|].
  cbn [Re.run Str.starts Str.drop_while].
  destruct (Char.is_digit c); [|reflexivity].
  change ((fix star (t : string) : option string := _) s)
    with (Re.run (Re.Star Char.is_digit) s K1).
  assert (Hlit : forall t, Str.starts Char.is_space t = true -> K2 t = None).
  { intros t Ht. unfold K2. rewrite run_lit.
    now rewrite (strip_prefix_starts Char.is_space u t Ht Hs Hu). }
  assert (HK1 : forall t, K1 t = strip_prefix u (Str.drop_while Char.is_space t)).
  { intros t. unfold K1. rewrite (run_star_none _ _ _ Hlit).
    unfold K2. rewrite run_lit. now destruct (strip_prefix u _). }
  rewrite run_star_none.
  - apply HK1.
  - intros t Ht. rewrite HK1.
    assert (Hns : Str.starts Char.is_space t = false).
    { destruct t as [|d t]; [reflexivity|]. simpl in *.
      now apply CharFacts.digit_not_space. }
    rewrite (drop_while_id _ _ Hns).
    now rewrite (strip_prefix_starts Char.is_digit u t Ht Hd Hu).
Qed.

(** The whole pattern: the alternatives in the order they are written. *)
Lemma match_dosage (s : string) :
  Re.match_at dosage_re s =
  match dose_at "mg" s with
  | Some rest => Some rest
  | None =>
      match dose_at "ml" s with
      | Some rest => Some rest
      | None => dose_at "mcg" s
      end
  end.
Proof.
  unfold dosage_re.
  change (Re.match_at (Re.Alt (dose_alt "mg")
                         (Re.Alt (dose_alt "ml") (dose_alt "mcg"))) s)
    with (match Re.match_at (dose_alt "mg") s with
          | Some rest => Some rest
          | None =>
              match Re.match_at (dose_alt "ml") s with
              | Some rest => Some rest
              | None => Re.match_at (dose_alt "mcg") s
              end
          end).
  now rewrite !match_dose_alt by (reflexivity || discriminate).
Qed.

(** A match starts with a digit. *)
Lemma match_dosage_no_digit c (s : string) :
  Char.is_digit c = false -> Re.match_at dosage_re (String c s) = None.
Proof.
  intros Hc. rewrite match_dosage. unfold dose_at. cbn [Str.starts].
  now rewrite Hc.
Qed.

Lemma findall_no_digit (p t : string) :
  Str.all Char.not_digit p = true ->
  Re.findall dosage_re (p ++ t) = Re.findall dosage_re t.
Proof.
  unfold Re.findall. induction p as [|c p IH]; [reflexivity|].
  intros H. simpl in H. apply andb_true_iff in H as [Hc Hp].
  apply negb_true_iff in Hc.
  change (String c p ++ t) with (String c (p ++ t)).
  rewrite scan_gap by now apply match_dosage_no_digit.
  cbn [Re.hits]. auto.
Qed.

Lemma starts_digit_after_spaces (ws b : string) :
  Str.all Char.is_space ws = true -> Str.starts Char.is_digit b = false ->
  Str.starts Char.is_digit (ws ++ b) = false.
Proof.
  destruct ws as [|c ws]; [auto|]. simpl. intros H _.
  apply andb_true_iff in H as [Hc _].
  destruct (Char.is_digit c) eqn:E; [|reflexivity].
  apply CharFacts.digit_not_space in E. congruence.
Qed.

Lemma dose_at_token (ds ws u u' rest : string) :
  ds <> "" -> Str.all Char.is_digit ds = true ->
  Str.all Char.is_space ws = true ->
  Str.starts Char.is_digit (u ++ rest) = false ->
  Str.starts Char.is_space (u ++ rest) = false ->
  dose_at u' (ds ++ ws ++ u ++ rest) = strip_prefix u' (u ++ rest).
Proof.
  intros Hne Hds Hws Hud Hus. unfold dose_at.
  rewrite starts_app, (all_starts _ _ Hne Hds) by exact Hne.
  rewrite (drop_while_app _ ds _ Hds)
    by now apply starts_digit_after_spaces.
  now rewrite (drop_while_app _ ws _ Hws Hus).
Qed.

(** Digits, whitespace and a unit are one match, whatever follows. *)
Lemma match_dosage_token (ds ws u rest : string) :
  ds <> "" -> Str.all Char.is_digit ds = true ->
  Str.all Char.is_space ws = true -> In u units ->
  Re.match_at dosage_re (ds ++ ws ++ u ++ rest) = Some rest.
Proof.
  intros Hne Hds Hws Hu. rewrite match_dosage.
  destruct Hu as [<-|[<-|[<-|[]]]];
    rewrite !(dose_at_token ds ws _ _ rest Hne Hds Hws)
      by reflexivity;
    reflexivity.
Qed.

Lemma findall_token (ds ws u rest : string) :
  ds <> "" -> Str.all Char.is_digit ds = true ->
  Str.all Char.is_space ws = true -> In u units ->
  Re.findall dosage_re (ds ++ ws ++ u ++ rest) =
  (ds ++ ws ++ u) :: Re.findall dosage_re rest.
Proof.
  intros Hne Hds Hws Hu. unfold Re.findall.
  pose proof (match_dosage_token ds ws u rest Hne Hds Hws Hu) as Hm.
  replace (ds ++ ws ++ u ++ rest) with ((ds ++ ws ++ u) ++ rest) in *
    by now rewrite !app_assoc.
  rewrite scan_hit; [reflexivity | | exact Hm].
  destruct ds; [congruence | discriminate].
Qed.

Lemma join_cons_inj (sep x y : string) (l : list string) :
  Str.join sep (x :: l) = Str.join sep (y :: l) -> x = y.
Proof.
  unfold Str.join. destruct l as [|z l]; simpl; [auto|].
  apply app_inv_tail.
Qed.

End DosageFacts.

(* ================================================================== *)
(** ** Normalised compositions *)

Module NormalFacts.

Import StrFacts ReFacts.

Lemma join_cons (sep w : string) (ws : list string) :
  Str.join sep (w :: ws) =
  match ws with [] => w | _ :: _ => w ++ sep ++ Str.join sep ws end.
Proof. reflexivity. Qed.

Lemma join_push c (sep w : string) (ws : list string) :
  Str.join sep (String c w :: ws) = String c (Str.join sep (w :: ws)).
Proof. rewrite !join_cons. now destruct ws. Qed.

Lemma rstrip_cons c (s : string) :
  Str.rstrip (String c s) =
  match Str.rstrip s with
  | EmptyString => if Char.is_space c then EmptyString else String c EmptyString
  | String d t => String c (String d t)
  end.
Proof. reflexivity. Qed.

Lemma rstrip_cons_not_space c (s : string) :
  Char.is_space c = false -> Str.rstrip (String c s) = String c (Str.rstrip s).
Proof. intros H. rewrite rstrip_cons, H. now destruct (Str.rstrip s). Qed.

Lemma words_cons c (s : string) :
  words (String c s) =
  if Char.is_space c then words s
  else if Str.starts Char.not_space s then
    match words s with
    | w :: ws => String c w :: ws
    | [] => [String c EmptyString]
    end
  else String c EmptyString :: words s.
Proof. reflexivity. Qed.

(** Every word has a first character, and no word holds whitespace. *)
Lemma words_not_space (s : string) :
  Forall (fun w => w <> "" /\ Str.all Char.not_space w = true) (words s).
Proof.
  induction s as [|c s IH]; [constructor|]. rewrite words_cons.
  destruct (Char.is_space c) eqn:Hc; [exact IH|].
  assert (Hn : Char.not_space c = true) by (unfold Char.not_space; now rewrite Hc).
  destruct (Str.starts Char.not_space s).
  - destruct (words s) as [|w ws].
    + constructor; [|constructor]. split; [discriminate | simpl; now rewrite Hn].
    + inversion IH as [|? ? [_ Hw] Hws]; subst. constructor; [|exact Hws].
      split; [discriminate | simpl; now rewrite Hn, Hw].
  - constructor; [|exact IH].
    split; [discriminate | simpl; now rewrite Hn].
Qed.

Lemma join_words_empty (s : string) :
  Str.join " " (words s) = "" -> words s = [].
Proof.
  pose proof (words_not_space s) as H.
  destruct (words s) as [|w ws]; [reflexivity|].
  inversion H as [|? ? [Hw _] _]; subst. rewrite join_cons.
  destruct w; [congruence|]. destruct ws; discriminate.
Qed.

(** Whitespace at the end goes, whitespace at the start is the one
    space that [collapse] left there. *)
Lemma rstrip_collapse (t : string) :
  Str.rstrip (collapse t) =
  if Str.starts Char.is_space t then
    match words t with
    | [] => ""
    | _ :: _ => String Char.space (Str.join " " (words t))
    end
  else Str.join " " (words t).
Proof.
  induction t as [|c t IH]; [reflexivity|].
  cbn [collapse Str.starts]. rewrite words_cons.
  destruct (Char.is_space c) eqn:Hc.
  - destruct (Str.starts Char.is_space t) eqn:Ht; [exact IH|].
    rewrite rstrip_cons, IH. cbn [Char.is_space].
    rewrite CharFacts.space_is_space.
    destruct (words t) as [|w ws] eqn:Hw; [reflexivity|].
    destruct (Str.join " " (w :: ws)) eqn:Hj; [|reflexivity].
    rewrite <- Hw in Hj. apply join_words_empty in Hj. congruence.
  - rewrite rstrip_cons_not_space, IH by exact Hc.
    destruct t as [|d t]; [reflexivity|].
    cbn [Str.starts]. unfold Char.not_space at 1.
    destruct (Char.is_space d) eqn:Hd; cbn [negb].
    + destruct (words (String d t)) as [|w ws]; [reflexivity|].
      rewrite join_cons. reflexivity.
    + destruct (words (String d t)) as [|w ws]; [reflexivity|].
      now rewrite join_push.
Qed.

Lemma starts_collapse (t : string) :
  Str.starts Char.is_space (collapse t) = Str.starts Char.is_space t.
Proof.
  induction t as [|c t IH]; [reflexivity|]. cbn [collapse Str.starts].
  destruct (Char.is_space c) eqn:Hc; [|simpl; exact Hc].
  destruct (Str.starts Char.is_space t) eqn:Ht; [now rewrite IH|reflexivity].
Qed.

Lemma lstrip_collapse (t : string) :
  Str.lstrip (collapse t) = collapse (Str.lstrip t).
Proof.
  unfold Str.lstrip. induction t as [|c t IH]; [reflexivity|].
  cbn [collapse Str.drop_while]. destruct (Char.is_space c) eqn:Hc.
  - destruct (Str.starts Char.is_space t); [exact IH|].
    cbn [Str.drop_while]. rewrite CharFacts.space_is_space. exact IH.
  - cbn [Str.drop_while collapse]. now rewrite !Hc.
Qed.

Lemma words_lstrip (t : string) : words (Str.lstrip t) = words t.
Proof.
  unfold Str.lstrip. induction t as [|c t IH]; [reflexivity|].
  cbn [Str.drop_while]. rewrite words_cons.
  destruct (Char.is_space c) eqn:Hc; [exact IH|].
  now rewrite words_cons, Hc.
Qed.

(** [re.sub(r"\s+", " ", t).strip()] is [" ".join(t.split())]. *)
Lemma strip_collapse (t : string) :
  Str.strip (collapse t) = Str.join " " (words t).
Proof.
  unfold Str.strip. rewrite lstrip_collapse, rstrip_collapse.
  unfold Str.lstrip at 1. rewrite starts_drop_while.
  now rewrite words_lstrip.
Qed.

Lemma lower_no_upper (s : string) :
  Str.all Char.not_upper (Str.lower s) = true.
Proof.
  unfold Str.lower. induction s as [|c s IH]; [reflexivity|].
  cbn [Str.map Str.all]. unfold Char.not_upper at 1.
  now rewrite CharFacts.lower_not_upper.
Qed.

End NormalFacts.

(* ================================================================== *)
(** ** Lists, [head] and sorted frames *)

Module FrameFacts.

Local Open Scope list_scope.

Lemma filter_first {A} (p : A -> bool) (l : list A) x xs :
  filter p l = x :: xs ->
  exists pre post,
    l = pre ++ x :: post /\ p x = true /\
    (forall y, In y pre -> p y = false) /\ xs = filter p post.
Proof.
  induction l as [|a l IH]; simpl; [discriminate|].
  destruct (p a) eqn:Ha.
  - intros H; inversion H; subst. exists [], l. simpl. intuition.
  - intros H. destruct (IH H) as (pre & post & -> & Hx & Hpre & Hxs).
    exists (a :: pre), post. simpl. repeat split; auto.
    intros y [<-|Hy]; auto.
Qed.

Lemma filter_skip {A} (p : A -> bool) (pre l : list A) :
  (forall y, In y pre -> p y = false) -> filter p (pre ++ l) = filter p l.
Proof.
  induction pre as [|a pre IH]; simpl; intros H; [reflexivity|].
  rewrite (H a) by auto. apply IH. auto.
Qed.

Lemma filter_nil {A} (p : A -> bool) (l : list A) :
  filter p l = [] <-> forall y, In y l -> p y = false.
Proof.
  induction l as [|a l IH]; simpl; [intuition|].
  destruct (p a) eqn:Ha.
  - split; [discriminate|]. intros H. rewrite (H a) in Ha; auto. discriminate.
  - rewrite IH. split; intros H y; [intros [<-|Hy]; auto | auto].
Qed.

Lemma head_length {A} (n : Z) (l : list A) :
  (0 <= n)%Z -> (Z.of_nat (List.length (head n l)) <= n)%Z.
Proof.
  intros Hn. unfold head. destruct (0 <=? n)%Z eqn:E; [|lia].
  rewrite length_firstn. lia.
Qed.

Lemma head_zero {A} (l : list A) : head 0 l = [].
Proof. reflexivity. Qed.

Lemma head_negative {A} (n : Z) (l : list A) :
  (n < 0)%Z -> head n l = firstn (List.length l - Z.to_nat (- n)) l.
Proof. intros Hn. unfold head. destruct (0 <=? n)%Z eqn:E; [lia|reflexivity]. Qed.

Lemma head_prefix {A} (n : Z) (l : list A) : exists k, head n l = firstn k l.
Proof. unfold head. destruct (0 <=? n)%Z; eauto. Qed.

Lemma In_head {A} (n : Z) (l : list A) x : In x (head n l) -> In x l.
Proof.
  destruct (head_prefix n l) as [k ->].
  intros H. rewrite <- (firstn_skipn k l). apply in_or_app. now left.
Qed.

Lemma sorted_firstn {A} (R : A -> A -> Prop) (k : nat) (l : list A) :
  StronglySorted R l -> StronglySorted R (firstn k l).
Proof.
  intros H. revert k. induction H as [|a l Hl IH Ha]; intros [|k]; simpl;
    try constructor.
  - apply IH.
  - rewrite Forall_forall in *. intros x Hx. apply Ha.
    rewrite <- (firstn_skipn k l). apply in_or_app. now left.
Qed.

Lemma sorted_nth {A} (R : A -> A -> Prop) (l : list A) :
  StronglySorted R l ->
  forall i j a b, i < j -> nth_error l i = Some a -> nth_error l j = Some b ->
  R a b.
Proof.
  induction 1 as [|x l Hl IH Hx]; intros i j a b Hij Hi Hj.
  - destruct i; discriminate.
  - destruct j as [|j]; [lia|]. simpl in Hj. destruct i as [|i].
    + simpl in Hi. inversion Hi; subst.
      rewrite Forall_forall in Hx. apply Hx. eapply nth_error_In; eauto.
    + simpl in Hi. apply (IH i j); auto. lia.
Qed.

End FrameFacts.

(* ================================================================== *)
(** ** The insertion sort meets the contract of [sort_values] *)

Module Reference.

Import Sample.

Lemma price_leb_le a b : price_leb a b = true -> price_le a b.
Proof.
destruct a, b; simpl; auto; [apply Qle_bool_iff | discriminate].
Qed.

Lemma price_leb_gt a b : price_leb a b = false -> price_le b a.
Proof.
destruct a as [x|], b as [y|]; simpl; auto; try discriminate.
intros H. destruct (Qlt_le_dec x y) as [Hlt|Hle]; [|exact Hle].
apply Qlt_le_weak, Qle_bool_iff in Hlt. congruence.
Qed.

Lemma price_le_trans a b c : price_le a b -> price_le b c -> price_le a c.
Proof.
destruct a, b, c; simpl; auto; try contradiction. apply Qle_trans.
Qed.

Lemma insert_perm x l : Permutation (insert_by_price x l) (x :: l).
Proof.
induction l as [|y l IH]; simpl; [reflexivity|].
destruct (price_leb _ _); [reflexivity|].
rewrite IH. apply perm_swap.
Qed.

Lemma insert_sorted x l :
StronglySorted by_price l -> StronglySorted by_price (insert_by_price x l).
Proof.
induction 1 as [|y l Hl IH Hy]; simpl.
- repeat constructor.
- destruct (price_leb (alt_price x) (alt_price y)) eqn:E.
  + constructor; [now constructor|]. apply price_leb_le in E.
    constructor; [exact E|]. rewrite Forall_forall in *.
    intros z Hz. eapply price_le_trans; [exact E | now apply Hy].
  + constructor; [exact IH|]. apply price_leb_gt in E.
    rewrite Forall_forall in *. intros z Hz.
    apply (Permutation_in _ (insert_perm x l)) in Hz.
    destruct Hz as [<-|Hz]; [exact E | now apply Hy].
Qed.

Lemma insertion_sort_perm l : Permutation (insertion_sort l) l.
Proof.
induction l as [|x l IH]; simpl; [reflexivity|].
rewrite insert_perm. now constructor.
Qed.

Lemma insertion_sort_sorted l : StronglySorted by_price (insertion_sort l).
Proof.
induction l as [|x l IH]; simpl; [constructor | now apply insert_sorted].
Qed.

Definition pandas : Pandas :=
{| to_float := parse_decimal;
   sort_values := insertion_sort;
   sort_values_perm := insertion_sort_perm;
   sort_values_sorted := insertion_sort_sorted |}.

Definition good_model : Model := Sample.good_model.

Definition broken_model : Model := Sample.broken_model.

Definition csv : list Csv.row := Sample.csv.

(** The table built from [Sample.csv]. *)
Definition df : list Col.row := load (pandas := pandas) csv.

End Reference.

(* ================================================================== *)
(** ** The steps of [recommend_alternatives] *)

Section Engine.

Context {pandas : Pandas} {model : Model}.

Local Open Scope list_scope.

Lemma contains_false (s k : string) :
  Str.contains s k = false <-> ~ is_substring k s.
Proof.
  rewrite <- StrFacts.contains_spec. destruct (Str.contains s k); split;
    congruence.
Qed.

Lemma matches_nil (df : list Col.row) (key : string) :
  matches df key = [] <->
  forall r, In r df -> ~ is_substring key (Col.clean_name r).
Proof.
  unfold matches. rewrite FrameFacts.filter_nil.
  split; intros H r Hr; apply contains_false; auto.
Qed.

Lemma matches_first (df : list Col.row) (key : string) row ms :
  matches df key = row :: ms -> first_match key df row.
Proof.
  intros H. apply FrameFacts.filter_first in H
    as (pre & post & -> & Hrow & Hpre & _).
  exists pre, post. repeat split.
  - now apply StrFacts.contains_spec.
  - intros r Hr. apply contains_false. auto.
Qed.

Lemma first_match_matches (df : list Col.row) (key : string) row :
  first_match key df row -> exists ms, matches df key = row :: ms.
Proof.
  intros (pre & post & -> & Hrow & Hpre). unfold matches.
  rewrite FrameFacts.filter_skip.
  - simpl. apply StrFacts.contains_spec in Hrow. rewrite Hrow. eauto.
  - intros r Hr. apply contains_false. auto.
Qed.

Lemma first_match_unique (df : list Col.row) (key : string) row row' :
  first_match key df row -> first_match key df row' -> row = row'.
Proof.
  intros H H'. apply first_match_matches in H as [ms H].
  apply first_match_matches in H' as [ms' H']. congruence.
Qed.

Lemma recommend_first_match (df : list Col.row) (q : string) (top_n : Z) row :
  first_match (Str.strip (Str.lower q)) df row ->
  recommend_alternatives df q top_n = alternatives_for df row top_n.
Proof.
  intros H. apply first_match_matches in H as [ms H].
  unfold recommend_alternatives. now rewrite H.
Qed.

Lemma recommend_no_match (df : list Col.row) (q : string) (top_n : Z) :
  (forall r, In r df ->
     ~ is_substring (Str.strip (Str.lower q)) (Col.clean_name r)) ->
  recommend_alternatives df q top_n = ReturnNone.
Proof.
  intros H. apply matches_nil in H.
  unfold recommend_alternatives. now rewrite H.
Qed.

Lemma is_alternative_spec row real_group r :
  is_alternative row real_group r = true <-> alternative_of row real_group r.
Proof.
  unfold is_alternative, alternative_of.
  rewrite !andb_true_iff, negb_true_iff, Z.eqb_eq, String.eqb_eq,
    String.eqb_neq.
  tauto.
Qed.

Lemma candidates_spec (df : list Col.row) row real_group r :
  In r (candidates df row real_group) <->
  In r df /\ alternative_of row real_group r.
Proof.
  unfold candidates. now rewrite filter_In, is_alternative_spec.
Qed.

Lemma candidates_nil (df : list Col.row) row real_group :
  candidates df row real_group = [] <->
  forall r, In r df -> ~ alternative_of row real_group r.
Proof.
  unfold candidates. rewrite FrameFacts.filter_nil.
  split; intros H r Hr.
  - rewrite <- is_alternative_spec, (H r Hr). discriminate.
  - specialize (H r Hr). rewrite <- is_alternative_spec in H.
    now destruct (is_alternative row real_group r).
Qed.

(** The three ways [alternatives_for] ends. *)
Lemma alternatives_for_raise (df : list Col.row) row (top_n : Z) e :
  predict_group (Col.clean_composition row) = Raise e ->
  alternatives_for df row top_n = Raises e.
Proof. intros H. unfold alternatives_for. now rewrite H. Qed.

Lemma alternatives_for_ok (df : list Col.row) row (top_n : Z) real_group :
  predict_group (Col.clean_composition row) = Ok real_group ->
  alternatives_for df row top_n =
  match candidates df row real_group with
  | [] => ReturnNone
  | _ :: _ =>
      ReturnFrame
        (head top_n (sort_values (map project (candidates df row real_group))))
  end.
Proof.
  intros H. unfold alternatives_for. rewrite H.
  now destruct (candidates df row real_group).
Qed.

Lemma alternatives_for_frame (df : list Col.row) row (top_n : Z) rows :
  alternatives_for df row top_n = ReturnFrame rows ->
  exists real_group,
    predict_group (Col.clean_composition row) = Ok real_group /\
    candidates df row real_group <> [] /\
    rows = head top_n (sort_values (map project (candidates df row real_group))).
Proof.
  unfold alternatives_for.
  destruct (predict_group (Col.clean_composition row)) as [g|e];
    [|discriminate].
  destruct (candidates df row g) as [|c cs] eqn:E; [discriminate|].
  intros H; inversion H; subst. exists g. rewrite E.
  repeat split. discriminate.
Qed.

Lemma recommend_frame (df : list Col.row) (q : string) (top_n : Z) rows :
  recommend_alternatives df q top_n = ReturnFrame rows ->
  exists row real_group,
    first_match (Str.strip (Str.lower q)) df row /\
    predict_group (Col.clean_composition row) = Ok real_group /\
    candidates df row real_group <> [] /\
    rows = head top_n (sort_values (map project (candidates df row real_group))).
Proof.
  unfold recommend_alternatives.
  destruct (matches df _) as [|row ms] eqn:E; [discriminate|].
  intros H. apply matches_first in E.
  apply alternatives_for_frame in H as (g & Hg & Hc & Hr).
  exists row, g. auto.
Qed.

Lemma frame_sorted (top_n : Z) (l : list alt) :
  StronglySorted by_price (head top_n (sort_values l)).
Proof.
  destruct (FrameFacts.head_prefix top_n (sort_values l)) as [k ->].
  apply FrameFacts.sorted_firstn, sort_values_sorted.
Qed.

Lemma frame_rows (top_n : Z) (cands : list Col.row) a :
  In a (head top_n (sort_values (map project cands))) ->
  exists r, In r cands /\ a = project r.
Proof.
  intros H. apply FrameFacts.In_head in H.
  apply (Permutation_in _ (sort_values_perm _)) in H.
  apply in_map_iff in H as (r & <- & Hr). eauto.
Qed.

End Engine.

(* ================================================================== *)
(** ** Properties of [recommend_alternatives] *)

Section Recommend.

Context {pandas : Pandas} {model : Model}.

Local Open Scope list_scope.

(** C1. When some row of the table has the lower-cased, stripped query
    as a substring of its [clean_name], the reference row is the first
    such row in table order, and the candidates are exactly the rows
    of the table whose [drug_group] is the predicted label, whose
    [dosage] is the string of the reference row and whose [clean_name]
    is another one; the call ends as [alternatives_for] says for that
    reference row. *)
Theorem recommend_reference_and_candidates
  (df : list Col.row) (q : string) (top_n : Z) :
  (exists r, In r df /\
     is_substring (Str.strip (Str.lower q)) (Col.clean_name r)) ->
  exists row,
    first_match (Str.strip (Str.lower q)) df row /\
    recommend_alternatives df q top_n = alternatives_for df row top_n /\
    forall real_group,
      predict_group (Col.clean_composition row) = Ok real_group ->
      (forall r, In r (candidates df row real_group) <->
                 In r df /\
                 Col.drug_group r = real_group /\
                 Col.dosage r = Col.dosage row /\
                 Col.clean_name r <> Col.clean_name row) /\
      recommend_alternatives df q top_n =
      match candidates df row real_group with
      | [] => ReturnNone
      | _ :: _ =>
          ReturnFrame
            (head top_n
               (sort_values (map project (candidates df row real_group))))
      end.
Proof.
  intros (r & Hr & Hsub).
  destruct (matches df (Str.strip (Str.lower q))) as [|row ms] eqn:E.
  - exfalso. rewrite matches_nil in E. exact (E r Hr Hsub).
  - apply matches_first in E. exists row. split; [exact E|].
    pose proof (recommend_first_match df q top_n row E) as Hrec.
    split; [exact Hrec|]. intros g Hg. split.
    + intros x. apply candidates_spec.
    + rewrite Hrec. now apply alternatives_for_ok.
Qed.

(** C2, as amended. A returned frame is in ascending order of price,
    whatever [top_n] is: of two of its rows the earlier one has the
    smaller or equal price when both prices are known, and a row
    without price comes before no row with a price.  For [top_n >= 0]
    the frame has at most [top_n] rows. *)
Theorem recommend_sorted_and_bounded
  (df : list Col.row) (q : string) (top_n : Z) (rows : list alt) :
  recommend_alternatives df q top_n = ReturnFrame rows ->
  ((0 <= top_n)%Z -> (Z.of_nat (List.length rows) <= top_n)%Z) /\
  forall i j a b,
    i < j -> nth_error rows i = Some a -> nth_error rows j = Some b ->
    (forall x y, alt_price a = Some x -> alt_price b = Some y -> (x <= y)%Q) /\
    (alt_price a = None -> alt_price b = None).
Proof.
  intros H. apply recommend_frame in H as (row & g & _ & _ & _ & ->).
  split.
  - apply FrameFacts.head_length.
  - intros i j a b Hij Ha Hb.
    pose proof (FrameFacts.sorted_nth by_price _
                  (frame_sorted top_n _) i j a b Hij Ha Hb) as Hab.
    unfold by_price, price_le in Hab. split.
    + intros x y Hx Hy. now rewrite Hx, Hy in Hab.
    + intros Hx. rewrite Hx in Hab. now destruct (alt_price b).
Qed.

(** C3. The call returns [None] exactly when no [clean_name] has the
    key as a substring, or the prediction for the reference row gives
    a group and no row of the table is an alternative for it.  On a
    table without a [clean_name] containing "xyznonexistentdrug123"
    the query "xyznonexistentdrug123" returns [None]. *)
Theorem recommend_none_iff (df : list Col.row) (q : string) (top_n : Z) :
  (recommend_alternatives df q top_n = ReturnNone <->
   (forall r, In r df ->
      ~ is_substring (Str.strip (Str.lower q)) (Col.clean_name r)) \/
   (exists row real_group,
      first_match (Str.strip (Str.lower q)) df row /\
      predict_group (Col.clean_composition row) = Ok real_group /\
      forall r, In r df ->
        ~ (Col.drug_group r = real_group /\
           Col.dosage r = Col.dosage row /\
           Col.clean_name r <> Col.clean_name row))) /\
  ((forall r, In r df ->
      ~ is_substring "xyznonexistentdrug123" (Col.clean_name r)) ->
   recommend_alternatives df "xyznonexistentdrug123" 5 = ReturnNone).
Proof.
  split.
  - split.
    + intros H.
      destruct (matches df (Str.strip (Str.lower q))) as [|row ms] eqn:E.
      * left. now apply matches_nil.
      * right. apply matches_first in E.
        rewrite (recommend_first_match df q top_n row E) in H.
        destruct (predict_group (Col.clean_composition row)) as [g|e] eqn:Hg.
        -- exists row, g. repeat split; auto.
           rewrite (alternatives_for_ok df row top_n g Hg) in H.
           destruct (candidates df row g) eqn:Hc; [|discriminate].
           now apply candidates_nil.
        -- rewrite (alternatives_for_raise df row top_n e Hg) in H.
           discriminate.
    + intros [Hno | (row & g & Hrow & Hg & Hc)].
      * now apply recommend_no_match.
      * rewrite (recommend_first_match df q top_n row Hrow).
        rewrite (alternatives_for_ok df row top_n g Hg).
        apply candidates_nil in Hc. now rewrite Hc.
  - intros H. apply recommend_no_match. exact H.
Qed.

(** C4, as amended. An error of the vectoriser, the classifier or the
    label decoder on the composition of the reference row is not
    turned into [None]: the exception leaves [recommend_alternatives].
    When the prediction for the reference row gives a group, the call
    returns [None] or a frame. *)
Theorem recommend_prediction_error_propagates
  (df : list Col.row) (q : string) (top_n : Z) (row : Col.row) :
  first_match (Str.strip (Str.lower q)) df row ->
  (forall e, predict_group (Col.clean_composition row) = Raise e ->
             recommend_alternatives df q top_n = Raises e) /\
  (forall real_group,
      predict_group (Col.clean_composition row) = Ok real_group ->
      recommend_alternatives df q top_n = ReturnNone \/
      exists rows, recommend_alternatives df q top_n = ReturnFrame rows).
Proof.
  intros Hrow. rewrite (recommend_first_match df q top_n row Hrow). split.
  - intros e He. now apply alternatives_for_raise.
  - intros g Hg. rewrite (alternatives_for_ok df row top_n g Hg).
    destruct (candidates df row g); eauto.
Qed.

(** C5, as amended. For [top_n = 0] a returned frame is empty.  For
    [top_n < 0] a returned frame holds the sorted candidates without
    their last [-top_n] rows, as [head] of pandas does; it is not
    empty when there are more than [-top_n] candidates. *)
Theorem recommend_non_positive_top_n
  (df : list Col.row) (q : string) (top_n : Z) (rows : list alt) :
  (top_n <= 0)%Z ->
  recommend_alternatives df q top_n = ReturnFrame rows ->
  (top_n = 0%Z -> rows = []) /\
  ((top_n < 0)%Z ->
   exists row real_group,
     first_match (Str.strip (Str.lower q)) df row /\
     predict_group (Col.clean_composition row) = Ok real_group /\
     let cands := candidates df row real_group in
     rows = firstn (List.length cands - Z.to_nat (- top_n))
              (sort_values (map project cands)) /\
     List.length rows = List.length cands - Z.to_nat (- top_n)).
Proof.
  intros Hn H. apply recommend_frame in H as (row & g & Hrow & Hg & _ & ->).
  split.
  - intros ->. reflexivity.
  - intros Hneg. exists row, g. split; [exact Hrow|]. split; [exact Hg|].
    cbv zeta.
    assert (Hlen : List.length (sort_values (map project (candidates df row g)))
                   = List.length (candidates df row g)).
    { rewrite (Permutation_length (sort_values_perm _)). apply length_map. }
    rewrite FrameFacts.head_negative by exact Hneg. rewrite Hlen.
    split; [reflexivity|]. rewrite length_firstn, Hlen. lia.
Qed.

(** C10. On a table with at least one row a query of whitespace only
    (the empty query included) has the empty key, every row matches
    it, the reference row is the first row of the table, and the call
    goes on to compute the alternatives of that row. *)
Theorem recommend_blank_query
  (row : Col.row) (rest : list Col.row) (q : string) (top_n : Z) :
  Str.all Char.is_space q = true ->
  Str.strip (Str.lower q) = "" /\
  matches (row :: rest) "" = row :: rest /\
  first_match (Str.strip (Str.lower q)) (row :: rest) row /\
  recommend_alternatives (row :: rest) q top_n =
  alternatives_for (row :: rest) row top_n.
Proof.
  intros Hq.
  assert (Hkey : Str.strip (Str.lower q) = "").
  { apply StrFacts.strip_spaces. unfold Str.lower.
    rewrite StrFacts.all_map; [exact Hq | apply CharFacts.lower_space]. }
  assert (Hall : forall l : list Col.row, matches l "" = l).
  { intros l. unfold matches. induction l as [|x l IH]; [reflexivity|].
    simpl. rewrite StrFacts.contains_empty. now f_equal. }
  assert (Hfirst : first_match "" (row :: rest) row).
  { apply (matches_first _ _ row rest). apply Hall. }
  rewrite Hkey. repeat split; auto.
  unfold recommend_alternatives. now rewrite Hkey, Hall.
Qed.

End Recommend.

(* ================================================================== *)
(** ** Properties of the table built at start-up *)

Section Loader.

Context {pandas : Pandas} {model : Model}.

Local Open Scope list_scope.

Lemma load_rows (csv : list Csv.row) (rec : Col.row) :
  In rec (load csv) <->
  exists r, In r csv /\ clean_composition_of r <> "" /\
            rec = derive (categories (map clean_composition_of
                                        (filter kept csv))) r.
Proof.
  unfold load. rewrite in_map_iff. split.
  - intros (r & <- & Hr). apply filter_In in Hr as [Hin Hk].
    exists r. repeat split; auto.
    unfold kept in Hk. apply negb_true_iff, String.eqb_neq in Hk. exact Hk.
  - intros (r & Hin & Hk & ->). exists r. split; [reflexivity|].
    apply filter_In. split; [exact Hin|].
    unfold kept. now apply negb_true_iff, String.eqb_neq.
Qed.

Lemma load_prices (csv : list Csv.row) :
  map Col.price (load csv) =
  map (fun r => to_numeric (Csv.price r)) (filter kept csv).
Proof. unfold load. rewrite map_map. reflexivity. Qed.

Lemma blank_composition_dropped name price :
  kept (Csv.Row name None None price) = false.
Proof. reflexivity. Qed.

(** C8. Every row of the table has a [clean_composition] that is the
    normalised [composition] and is not empty; a line whose two
    composition cells are absent leaves no row in the table; and the
    rows of a frame returned by [recommend_alternatives] are rows of
    the table, so none of them has an empty [clean_composition]. *)
Theorem load_clean_composition_nonempty (csv : list Csv.row) :
  Forall (fun rec =>
            Col.clean_composition rec =
              clean_composition (Some (Col.composition rec)) /\
            Col.clean_composition rec <> "") (load csv) /\
  (forall pre post name price,
      load (pre ++ Csv.Row name None None price :: post) =
      load (pre ++ post)) /\
  (forall q top_n rows,
      recommend_alternatives (load csv) q top_n = ReturnFrame rows ->
      Forall (fun a =>
                alt_clean_composition a <> "" /\
                exists rec, In rec (load csv) /\ a = project rec) rows).
Proof.
  assert (Hinv : forall rec, In rec (load csv) ->
            Col.clean_composition rec =
              clean_composition (Some (Col.composition rec)) /\
            Col.clean_composition rec <> "").
  { intros rec H. apply load_rows in H as (r & _ & Hk & ->).
    split; [reflexivity | exact Hk]. }
  split; [|split].
  - apply Forall_forall. exact Hinv.
  - intros pre post name price. unfold load.
    rewrite !filter_app. cbn [filter].
    now rewrite blank_composition_dropped.
  - intros q top_n rows H.
    apply recommend_frame in H as (row & g & _ & _ & _ & ->).
    apply Forall_forall. intros a Ha.
    apply frame_rows in Ha as (rec & Hrec & ->).
    apply candidates_spec in Hrec as [Hrec _].
    split; [apply (Hinv rec Hrec) | eauto].
Qed.

End Loader.

(* ================================================================== *)
(** ** Properties of the text functions *)

Section Text.

Import StrFacts NormalFacts.

Lemma words_all (p : ascii -> bool) (s : string) :
  Str.all p s = true -> Forall (fun w => Str.all p w = true) (words s).
Proof.
  induction s as [|c s IH]; [constructor|]. intros H. simpl in H.
  apply andb_true_iff in H as [Hc Hs]. specialize (IH Hs).
  rewrite words_cons. destruct (Char.is_space c); [exact IH|].
  destruct (Str.starts Char.not_space s).
  - destruct (words s) as [|w ws].
    + repeat constructor. simpl. now rewrite Hc.
    + inversion IH; subst. constructor; [|assumption].
      simpl. now rewrite Hc.
  - constructor; [|exact IH]. simpl. now rewrite Hc.
Qed.

Lemma brackets_gone (s : string) :
  Str.all Char.not_bracket (Str.map bracket_to_space s) = true.
Proof.
  induction s as [|c s IH]; [reflexivity|]. cbn [Str.map Str.all].
  unfold Char.not_bracket at 1.
  now rewrite CharFacts.bracket_to_space_not_bracket.
Qed.

Lemma brackets_keep_lower (s : string) :
  Str.all Char.not_upper s = true ->
  Str.all Char.not_upper (Str.map bracket_to_space s) = true.
Proof.
  induction s as [|c s IH]; [reflexivity|]. cbn [Str.map Str.all].
  intros H. apply andb_true_iff in H as [Hc Hs]. rewrite (IH Hs).
  unfold Char.not_upper in *. apply negb_true_iff in Hc.
  now rewrite CharFacts.bracket_to_space_not_upper.
Qed.

(** C9. [clean_composition] gives the empty string for an absent
    value; for a string it gives the words of the lower-cased text in
    which the characters ( ) [ ] , are read as spaces, joined by one
    space each: whitespace runs are one space and there is no
    whitespace at the ends.  The words are not empty and hold no
    whitespace, no upper-case letter and none of ( ) [ ] , . *)
Theorem clean_composition_normalizes :
  clean_composition None = "" /\
  (forall text, clean_composition text = normalize_composition_spec text) /\
  forall s,
    clean_composition (Some s) =
      Str.strip (collapse (Str.map bracket_to_space (Str.lower s))) /\
    clean_composition (Some s) =
      Str.join " " (words (Str.map bracket_to_space (Str.lower s))) /\
    Forall (fun w => w <> "" /\
                     Str.all Char.not_space w = true /\
                     Str.all Char.not_upper w = true /\
                     Str.all Char.not_bracket w = true)
           (words (Str.map bracket_to_space (Str.lower s))).
Proof.
  assert (Heq : forall s, clean_composition (Some s) =
              Str.join " " (words (Str.map bracket_to_space (Str.lower s)))).
  { intros s. unfold clean_composition.
    rewrite ReFacts.sub_bracket, ReFacts.sub_spaces. apply strip_collapse. }
  split; [reflexivity|]. split.
  - intros [s|]; [apply Heq | reflexivity].
  - intros s. split; [|split; [apply Heq|]].
    { unfold clean_composition.
      now rewrite ReFacts.sub_bracket, ReFacts.sub_spaces. }
    set (t := Str.map bracket_to_space (Str.lower s)).
    pose proof (words_not_space t) as H1.
    pose proof (words_all Char.not_upper t
                  (brackets_keep_lower _ (lower_no_upper s))) as H2.
    pose proof (words_all Char.not_bracket t (brackets_gone _)) as H3.
    rewrite Forall_forall in *. intros w Hw.
    destruct (H1 w Hw). auto.
Qed.

(** C6, as amended. [extract_dosage] keeps the whitespace written
    between a number and its unit.  For a name made of a prefix
    without digits, a number, whitespace, a unit whose lower-case form
    is mg, ml or mcg, and any rest, the key is the number, that
    whitespace and the lower-case unit, followed by the matches of the
    rest; so two such names that differ only in that whitespace have
    the same key exactly when the whitespace is the same. *)
Theorem extract_dosage_keeps_spacing (p ds ws u rest : string) :
  Str.all Char.not_digit p = true ->
  ds <> "" -> Str.all Char.is_digit ds = true ->
  Str.all Char.is_space ws = true ->
  In (Str.lower u) units ->
  extract_dosage (p ++ ds ++ ws ++ u ++ rest) =
    Str.join " " ((ds ++ ws ++ Str.lower u)
                    :: Re.findall dosage_re (Str.lower rest)) /\
  forall ws',
    Str.all Char.is_space ws' = true ->
    (extract_dosage (p ++ ds ++ ws ++ u ++ rest) =
     extract_dosage (p ++ ds ++ ws' ++ u ++ rest) <-> ws = ws').
Proof.
  intros Hp Hne Hds Hws Hu.
  assert (Hkey : forall w, Str.all Char.is_space w = true ->
            extract_dosage (p ++ ds ++ w ++ u ++ rest) =
            Str.join " " ((ds ++ w ++ Str.lower u)
                            :: Re.findall dosage_re (Str.lower rest))).
  { intros w Hw. unfold extract_dosage. rewrite !lower_app.
    rewrite DosageFacts.findall_no_digit.
    - unfold Str.lower at 1 2.
      rewrite (map_fix Char.lower Char.is_digit ds
                 CharFacts.lower_fix_digit Hds).
      rewrite (map_fix Char.lower Char.is_space w
                 CharFacts.lower_fix_space Hw).
      now rewrite DosageFacts.findall_token.
    - unfold Str.lower, Char.not_digit. rewrite all_map; [exact Hp|].
      intros c. now rewrite CharFacts.lower_digit. }
  split; [now apply Hkey|]. intros ws' Hws'.
  rewrite (Hkey ws Hws), (Hkey ws' Hws'). split.
  - intros H. apply DosageFacts.join_cons_inj in H.
    apply app_inv_head in H. now apply app_inv_tail in H.
  - now intros ->.
Qed.

End Text.

(* ================================================================== *)
(** ** The program on a small table *)

Section Runs.

Local Open Scope list_scope.

Let run := recommend_alternatives (pandas := Reference.pandas)
             (model := Reference.good_model).

Let crocin := Alt "Crocin 500mg" "paracetamol" (Some 8%Q).
Let pacimol := Alt "Pacimol 500mg" "paracetamol" (Some 9%Q).
Let calpol := Alt "Calpol 500mg" "paracetamol" None.

Example run_paracetamol :
  run Reference.df "Paracetamol 500mg" 5%Z
  = ReturnFrame [crocin; pacimol; calpol].
Proof. vm_compute. reflexivity. Qed.

Example run_unknown :
  run Reference.df "xyznonexistentdrug123" 5%Z = ReturnNone.
Proof. vm_compute. reflexivity. Qed.

Example run_no_alternative :
  run Reference.df "ascoril" 5%Z = ReturnNone.
Proof. vm_compute. reflexivity. Qed.

End Runs.

Example extract_dosage_tablet :
  extract_dosage "Paracetamol 500mg Tablet" = "500mg".
Proof. vm_compute. reflexivity. Qed.

Example extract_dosage_syrup :
  extract_dosage "Ascoril LS Syrup 5ml" = "5ml".
Proof. vm_compute. reflexivity. Qed.

Example extract_dosage_none : extract_dosage "Vitamin C Tablet" = "".
Proof. vm_compute. reflexivity. Qed.

Example extract_dosage_two :
  extract_dosage "Abc 12 34MCG and 5 mlx 7 m g" = "34mcg 5 ml".
Proof. vm_compute. reflexivity. Qed.

Example clean_composition_brackets :
  clean_composition (Some "  Paracetamol (500mg),  Caffeine [30mg] ")
  = "paracetamol 500mg caffeine 30mg".
Proof. vm_compute. reflexivity. Qed.

(** C1 on the table: the query "Paracetamol 500mg" has the first line as
    its reference row. *)
Lemma recommend_reference_and_candidates_witness :
  exists row,
    first_match "paracetamol 500mg" Reference.df row /\
    recommend_alternatives (pandas := Reference.pandas)
      (model := Reference.good_model) Reference.df " Paracetamol 500MG " 5
    = alternatives_for (pandas := Reference.pandas)
        (model := Reference.good_model) Reference.df row 5.
Proof.
  destruct (recommend_reference_and_candidates
              (pandas := Reference.pandas) (model := Reference.good_model)
              Reference.df " Paracetamol 500MG " 5)
    as (row & Hrow & Hrec & _).
  - eexists. split.
    + vm_compute. left. reflexivity.
    + exists "", "". vm_compute. reflexivity.
  - exists row. split; [exact Hrow | exact Hrec].
Defined.

(** C2 on the table: two rows asked for, two rows returned, cheapest
    first. *)
Lemma recommend_sorted_and_bounded_witness :
  recommend_alternatives (pandas := Reference.pandas)
    (model := Reference.good_model) Reference.df "Paracetamol 500mg" 2
  = ReturnFrame [Alt "Crocin 500mg" "paracetamol" (Some 8%Q);
                 Alt "Pacimol 500mg" "paracetamol" (Some 9%Q)] /\
  (Z.of_nat 2 <= 2)%Z /\ (8 <= 9)%Q.
Proof.
  assert (H : recommend_alternatives (pandas := Reference.pandas)
                (model := Reference.good_model) Reference.df
                "Paracetamol 500mg" 2
              = ReturnFrame [Alt "Crocin 500mg" "paracetamol" (Some 8%Q);
                             Alt "Pacimol 500mg" "paracetamol" (Some 9%Q)])
    by (vm_compute; reflexivity).
  destruct (recommend_sorted_and_bounded Reference.df "Paracetamol 500mg" 2 _ H)
    as [Hlen Hsorted].
  split; [exact H|]. split.
  - apply Hlen. lia.
  - destruct (Hsorted 0 1 _ _ (Nat.lt_0_succ 0) eq_refl eq_refl) as [Hle _].
    exact (Hle 8%Q 9%Q eq_refl eq_refl).
Defined.

(** C3 on the table: no name contains the unknown query. *)
Lemma recommend_none_iff_witness :
  recommend_alternatives (pandas := Reference.pandas)
    (model := Reference.good_model) Reference.df "xyznonexistentdrug123" 5
  = ReturnNone.
Proof.
  apply (recommend_none_iff (pandas := Reference.pandas)
           (model := Reference.good_model) Reference.df "" 5).
  intros r Hr Hsub. apply StrFacts.contains_spec in Hsub.
  vm_compute in Hr.
  repeat (destruct Hr as [<- | Hr]; [vm_compute in Hsub; discriminate|]).
  exact Hr.
Defined.

(** C4: the claim fails when the vectoriser rejects its input; the
    exception reaches the caller. *)
Lemma prediction_error_counterexample :
  exists row e,
    first_match "crocin" Reference.df row /\
    predict_group (model := Reference.broken_model) (Col.clean_composition row)
    = Raise e /\
    recommend_alternatives (pandas := Reference.pandas)
      (model := Reference.broken_model) Reference.df "Crocin" 5 = Raises e /\
    recommend_alternatives (pandas := Reference.pandas)
      (model := Reference.broken_model) Reference.df "Crocin" 5 <> ReturnNone.
Proof.
  eexists. eexists. split; [|split; [|split]].
  - exists (firstn 1 Reference.df), (skipn 2 Reference.df).
    split; [vm_compute; reflexivity|]. split.
    + exists "", " 500mg". vm_compute. reflexivity.
    + intros r Hr Hsub. apply StrFacts.contains_spec in Hsub.
      vm_compute in Hr. destruct Hr as [<- | []].
      vm_compute in Hsub. discriminate.
  - vm_compute. reflexivity.
  - vm_compute. reflexivity.
  - vm_compute. discriminate.
Qed.

Lemma first_match_crocin :
  first_match (Str.strip (Str.lower "Crocin")) Reference.df
    (nth 1 Reference.df (derive (pandas := Reference.pandas) []
                           (Csv.Row "" None None None))).
Proof.
  exists (firstn 1 Reference.df), (skipn 2 Reference.df).
  split; [vm_compute; reflexivity|]. split.
  - exists "", " 500mg". vm_compute. reflexivity.
  - intros r Hr Hsub. apply StrFacts.contains_spec in Hsub.
    vm_compute in Hr. destruct Hr as [<- | []].
    vm_compute in Hsub. discriminate.
Defined.

(** C4, as amended, on the table. *)
Lemma recommend_prediction_error_propagates_witness :
  recommend_alternatives (pandas := Reference.pandas)
    (model := Reference.broken_model) Reference.df "Crocin" 5
  = Raises (Exception "vectorizer not fitted").
Proof.
  apply (recommend_prediction_error_propagates
           (pandas := Reference.pandas) (model := Reference.broken_model)
           Reference.df "Crocin" 5 _ first_match_crocin).
  vm_compute. reflexivity.
Defined.

(** C5: the claim fails for [top_n = -1]; two of the three alternatives
    are returned. *)
Lemma non_positive_top_n_counterexample :
  (-1 <= 0)%Z /\
  recommend_alternatives (pandas := Reference.pandas)
    (model := Reference.good_model) Reference.df "Paracetamol 500mg" (-1)
  = ReturnFrame [Alt "Crocin 500mg" "paracetamol" (Some 8%Q);
                 Alt "Pacimol 500mg" "paracetamol" (Some 9%Q)] /\
  [Alt "Crocin 500mg" "paracetamol" (Some 8%Q);
   Alt "Pacimol 500mg" "paracetamol" (Some 9%Q)] <> [].
Proof.
  split; [lia|]. split; [vm_compute; reflexivity | discriminate].
Qed.

(** C5, as amended, on the table: [top_n = 0] gives the empty frame. *)
Lemma recommend_non_positive_top_n_witness :
  recommend_alternatives (pandas := Reference.pandas)
    (model := Reference.good_model) Reference.df "Paracetamol 500mg" 0
  = ReturnFrame [].
Proof.
  assert (H : exists rows,
             recommend_alternatives (pandas := Reference.pandas)
               (model := Reference.good_model) Reference.df
               "Paracetamol 500mg" 0 = ReturnFrame rows)
    by (eexists; vm_compute; reflexivity).
  destruct H as [rows H]. rewrite H. f_equal.
  apply (recommend_non_positive_top_n (pandas := Reference.pandas)
           (model := Reference.good_model) Reference.df
           "Paracetamol 500mg" 0 rows); [lia | exact H | reflexivity].
Defined.

(** C6: the claim fails on the names of the specification; the space
    before the unit stays in the key. *)
Lemma extract_dosage_spacing_counterexample :
  extract_dosage "Paracetamol 500 mg" = "500 mg" /\
  extract_dosage "Paracetamol 500mg" = "500mg" /\
  extract_dosage "Paracetamol 500 mg" <> extract_dosage "Paracetamol 500mg".
Proof.
  split; [vm_compute; reflexivity|].
  split; [vm_compute; reflexivity|]. vm_compute. discriminate.
Qed.

(** C6, as amended, on those names. *)
Lemma extract_dosage_keeps_spacing_witness :
  extract_dosage "Paracetamol 500 MG Tablet" = "500 mg" /\
  (extract_dosage "Paracetamol 500 MG Tablet"
   = extract_dosage "Paracetamol 500MG Tablet" <-> " " = "").
Proof.
  destruct (extract_dosage_keeps_spacing "Paracetamol " "500" " " "MG" " Tablet")
    as [Hkey Hiff].
  - reflexivity.
  - discriminate.
  - reflexivity.
  - reflexivity.
  - vm_compute. left. reflexivity.
  - split; [exact Hkey | apply (Hiff ""); reflexivity].
Defined.

(** C8 on the table: the line without composition is not in it. *)
Lemma load_clean_composition_nonempty_witness :
  Forall (fun rec => Col.clean_composition rec <> "") Reference.df /\
  List.length Reference.df = 7.
Proof.
  destruct (load_clean_composition_nonempty (pandas := Reference.pandas)
              (model := Reference.good_model) Reference.csv)
    as (Hinv & _ & _).
  split; [|reflexivity].
  apply Forall_forall. intros rec Hrec.
  rewrite Forall_forall in Hinv. apply (Hinv rec Hrec).
Defined.

(** C10 on the table: the query of two spaces has the first line as its
    reference row. *)
Lemma recommend_blank_query_witness :
  recommend_alternatives (pandas := Reference.pandas)
    (model := Reference.good_model) Reference.df "  " 5
  = ReturnFrame [Alt "Crocin 500mg" "paracetamol" (Some 8%Q);
                 Alt "Pacimol 500mg" "paracetamol" (Some 9%Q);
                 Alt "Calpol 500mg" "paracetamol" None].
Proof.
  assert (Hdf : Reference.df = hd (derive (pandas := Reference.pandas) []
                                     (Csv.Row "" None None None)) Reference.df
                               :: tl Reference.df) by reflexivity.
  rewrite Hdf at 1.
  destruct (recommend_blank_query (pandas := Reference.pandas)
              (model := Reference.good_model)
              (hd (derive (pandas := Reference.pandas) []
                     (Csv.Row "" None None None)) Reference.df)
              (tl Reference.df) "  " 5) as (_ & _ & _ & ->).
  - reflexivity.
  - vm_compute. reflexivity.
Defined.

(* ================================================================== *)
(** ** Further properties of the text functions *)

Module TextMore.

Import StrFacts NormalFacts.

Lemma lower_idem_char c : Char.lower (Char.lower c) = Char.lower c.
Proof. CharFacts.by_cases c. Qed.

Lemma blank_char c :
  Char.is_space (bracket_to_space (Char.lower c)) = is_blank c.
Proof. CharFacts.by_cases c. Qed.

Lemma lower_fix_not_upper c : Char.not_upper c = true -> Char.lower c = c.
Proof.
  unfold Char.not_upper, Char.lower. intros H.
  apply negb_true_iff in H. now rewrite H.
Qed.

Lemma bracket_fix c : Char.not_bracket c = true -> bracket_to_space c = c.
Proof.
  unfold Char.not_bracket, bracket_to_space. intros H.
  apply negb_true_iff in H. now rewrite H.
Qed.

Lemma lower_idem (s : string) : Str.lower (Str.lower s) = Str.lower s.
Proof.
  unfold Str.lower. induction s as [|c s IH]; [reflexivity|].
  cbn [Str.map]. now rewrite lower_idem_char, IH.
Qed.

Lemma all_app p (a b : string) :
  Str.all p (a ++ b) = Str.all p a && Str.all p b.
Proof.
  induction a as [|c a IH]; [reflexivity|]. simpl.
  now rewrite IH, andb_assoc.
Qed.

Lemma all_join p (ws : list string) :
  p Char.space = true -> Forall (fun w => Str.all p w = true) ws ->
  Str.all p (Str.join " " ws) = true.
Proof.
  intros Hsp. induction 1 as [|w ws Hw Hws IH]; [reflexivity|].
  rewrite join_cons. destruct ws as [|w' ws]; [exact Hw|].
  rewrite all_app, Hw.
  change (" " ++ Str.join " " (w' :: ws))
    with (String Char.space (Str.join " " (w' :: ws))).
  cbn [Str.all]. now rewrite Hsp, IH.
Qed.

(** *** Splitting what was joined *)

Lemma words_nil_iff (t : string) :
  words t = [] <-> Str.all Char.is_space t = true.
Proof.
  induction t as [|c t IH]; [split; reflexivity|].
  rewrite words_cons. cbn [Str.all].
  destruct (Char.is_space c); [exact IH|].
  split; [|discriminate].
  destruct (Str.starts Char.not_space t); [|discriminate].
  destruct (words t); discriminate.
Qed.

Lemma words_word_then_space (w rest : string) c :
  w <> "" -> Str.all Char.not_space w = true -> Char.is_space c = true ->
  words (w ++ String c rest) = w :: words rest.
Proof.
  induction w as [|a w IH]; [congruence|]. intros _ Hw Hc.
  cbn [Str.all] in Hw. apply andb_true_iff in Hw as [Ha Hw].
  change (String a w ++ String c rest) with (String a (w ++ String c rest)).
  rewrite words_cons.
  unfold Char.not_space in Ha. apply negb_true_iff in Ha. rewrite Ha.
  destruct w as [|b w].
  - cbn [append Str.starts]. unfold Char.not_space at 1. rewrite Hc.
    cbn [negb]. now rewrite words_cons, Hc.
  - rewrite IH by (discriminate || assumption).
    cbn [append Str.starts]. cbn [Str.all] in Hw.
    apply andb_true_iff in Hw as [Hb _]. now rewrite Hb.
Qed.

Lemma words_word (w : string) :
  w <> "" -> Str.all Char.not_space w = true -> words w = [w].
Proof.
  induction w as [|a w IH]; [congruence|]. intros _ Hw.
  cbn [Str.all] in Hw. apply andb_true_iff in Hw as [Ha Hw].
  rewrite words_cons.
  unfold Char.not_space in Ha. apply negb_true_iff in Ha. rewrite Ha.
  destruct w as [|b w]; [reflexivity|].
  rewrite IH by (discriminate || assumption).
  cbn [Str.starts]. cbn [Str.all] in Hw.
  apply andb_true_iff in Hw as [Hb _]. now rewrite Hb.
Qed.

Lemma words_join (ws : list string) :
  Forall (fun w => w <> "" /\ Str.all Char.not_space w = true) ws ->
  words (Str.join " " ws) = ws.
Proof.
  induction 1 as [|w ws [Hne Hw] Hws IH]; [reflexivity|].
  rewrite join_cons. destruct ws as [|w' ws].
  - now apply words_word.
  - change (" " ++ Str.join " " (w' :: ws))
      with (String Char.space (Str.join " " (w' :: ws))).
    rewrite words_word_then_space by (assumption || reflexivity).
    now rewrite IH.
Qed.

End TextMore.

(* ================================================================== *)
(** ** Further properties of the dosage key *)

Module DosageMore.

Import StrFacts ReFacts DosageFacts.

Lemma strip_prefix_some (u s rest : string) :
  strip_prefix u s = Some rest -> s = u ++ rest.
Proof.
  revert s; induction u as [|c u IH]; intros s; simpl.
  - now intros [= ->].
  - destruct s as [|d s]; [discriminate|].
    destruct (Ascii.eqb_spec c d) as [->|]; [|discriminate].
    intros H. now rewrite (IH s H).
Qed.

Lemma dose_at_shape (u s rest : string) :
  dose_at u s = Some rest ->
  exists ds ws : string,
    s = ds ++ ws ++ u ++ rest /\ ds <> "" /\
    Str.all Char.is_digit ds = true /\ Str.all Char.is_space ws = true.
Proof.
  unfold dose_at. destruct (Str.starts Char.is_digit s) eqn:Hs; [|discriminate].
  intros H. apply strip_prefix_some in H.
  exists (Str.take_while Char.is_digit s),
         (Str.take_while Char.is_space (Str.drop_while Char.is_digit s)).
  repeat split.
  - rewrite <- H, take_drop_while, take_drop_while. reflexivity.
  - destruct s as [|c s]; [discriminate|]. simpl in *. now rewrite Hs.
  - apply all_take_while.
  - apply all_take_while.
Qed.

Lemma match_dosage_shape (s rest : string) :
  Re.match_at dosage_re s = Some rest ->
  exists m, s = m ++ rest /\ dosage_token m.
Proof.
  rewrite match_dosage. intros H.
  assert (Hu : exists u, In u units /\ dose_at u s = Some rest).
  { destruct (dose_at "mg" s) eqn:E1.
    - exists "mg". split; [simpl; auto | congruence].
    - destruct (dose_at "ml" s) eqn:E2.
      + exists "ml". split; [simpl; auto | congruence].
      + exists "mcg". split; [simpl; auto | exact H]. }
  destruct Hu as (u & Hu & Hd).
  apply dose_at_shape in Hd as (ds & ws & -> & Hne & Hds & Hws).
  exists (ds ++ ws ++ u). split; [now rewrite !app_assoc|].
  exists ds, ws, u. auto.
Qed.

Lemma substring_cons (m s : string) c :
  is_substring m s -> is_substring m (String c s).
Proof. intros (a & b & ->). now exists (String c a), b. Qed.

Lemma scan_dosage_tokens (s : string) (skip : nat) :
  Forall (fun m => dosage_token m /\ is_substring m s)
         (Re.hits (Re.scan dosage_re s skip)).
Proof.
  revert skip; induction s as [|c s IH]; intros skip; [constructor|].
  assert (Hlift : forall k,
             Forall (fun m => dosage_token m /\ is_substring m (String c s))
                    (Re.hits (Re.scan dosage_re s k))).
  { intros k. eapply Forall_impl; [|apply (IH k)].
    intros m [Hm Hsub]. split; [exact Hm | now apply substring_cons]. }
  cbn [Re.scan]. destruct skip as [|n]; [|apply Hlift].
  destruct (Re.match_at dosage_re (String c s)) as [rest|] eqn:E;
    [|apply Hlift].
  apply match_dosage_shape in E as (m & Hm & Htok).
  destruct m as [|d m].
  { destruct Htok as (ds & ws & u & H & Hne & _).
    destruct ds; [congruence | discriminate]. }
  change (String d m ++ rest) with (String d (m ++ rest)) in Hm.
  injection Hm as -> ->.
  replace (String.length (String d (m ++ rest)) - String.length rest)
    with (S (String.length m))
    by (cbn [String.length]; rewrite length_app; lia).
  cbn [Re.hits]. constructor; [|apply Hlift].
  pose proof (substring_app (String d m) rest) as Hsub.
  cbn [String.length append] in Hsub. rewrite Hsub.
  split; [exact Htok|]. exists "", rest. reflexivity.
Qed.

End DosageMore.

(* ================================================================== *)
(** ** Further properties of [clean_composition] and [extract_dosage] *)

Section TextExtras.

Import StrFacts NormalFacts TextMore.

Lemma clean_words (s : string) :
  clean_composition (Some s) =
  Str.join " " (words (Str.map bracket_to_space (Str.lower s))).
Proof.
  unfold clean_composition.
  rewrite ReFacts.sub_bracket, ReFacts.sub_spaces. apply strip_collapse.
Qed.

Lemma words_clean (s : string) :
  Forall (fun w => w <> "" /\
                   Str.all Char.not_space w = true /\
                   Str.all Char.not_upper w = true /\
                   Str.all Char.not_bracket w = true)
         (words (Str.map bracket_to_space (Str.lower s))).
Proof.
  set (t := Str.map bracket_to_space (Str.lower s)).
  pose proof (words_not_space t) as H1.
  pose proof (words_all Char.not_upper t
                (brackets_keep_lower _ (lower_no_upper s))) as H2.
  pose proof (words_all Char.not_bracket t (brackets_gone _)) as H3.
  rewrite Forall_forall in *. intros w Hw. destruct (H1 w Hw). auto.
Qed.

(** X1. Normalising a composition that is already normalised changes
    nothing. *)
Theorem clean_composition_idempotent (text : option string) :
  clean_composition (Some (clean_composition text)) = clean_composition text.
Proof.
  destruct text as [s|]; [|reflexivity].
  rewrite (clean_words s).
  set (ws := words (Str.map bracket_to_space (Str.lower s))).
  pose proof (words_clean s) as Hws. fold ws in Hws.
  rewrite clean_words.
  assert (Hlow : Str.lower (Str.join " " ws) = Str.join " " ws).
  { apply (map_fix Char.lower Char.not_upper); [apply lower_fix_not_upper|].
    apply all_join; [reflexivity|].
    eapply Forall_impl; [|exact Hws]. cbv beta. tauto. }
  assert (Hbr : Str.map bracket_to_space (Str.join " " ws) = Str.join " " ws).
  { apply (map_fix bracket_to_space Char.not_bracket); [apply bracket_fix|].
    apply all_join; [reflexivity|].
    eapply Forall_impl; [|exact Hws]. cbv beta. tauto. }
  rewrite Hlow, Hbr, words_join; [reflexivity|].
  eapply Forall_impl; [|exact Hws]. cbv beta. tauto.
Qed.

Lemma clean_empty_iff (s : string) :
  clean_composition (Some s) = "" <-> Str.all is_blank s = true.
Proof.
  rewrite clean_words.
  assert (Hall : Str.all Char.is_space
                   (Str.map bracket_to_space (Str.lower s))
                 = Str.all is_blank s).
  { unfold Str.lower. induction s as [|c s IH]; [reflexivity|].
    cbn [Str.map Str.all]. now rewrite blank_char, IH. }
  rewrite <- Hall, <- words_nil_iff. split.
  - apply join_words_empty.
  - now intros ->.
Qed.

(** X2. The normalised composition is empty exactly when the value is
    absent or every character of the text is whitespace or one of
    ( ) [ ] , . *)
Theorem clean_composition_empty_iff (text : option string) :
  clean_composition text = "" <->
  match text with
  | None => True
  | Some s => Str.all is_blank s = true
  end.
Proof.
  destruct text as [s|].
  - apply clean_empty_iff.
  - split; [intros _; exact I | reflexivity].
Qed.

(** X3. The dosage key is the matches of the pattern joined by single
    spaces; every match is digits, then whitespace, then mg, ml or mcg,
    and occurs in the lower-cased name. *)
Theorem extract_dosage_tokens (name : string) :
  extract_dosage name =
    Str.join " " (Re.findall dosage_re (Str.lower name)) /\
  Forall (fun t => dosage_token t /\ is_substring t (Str.lower name))
         (Re.findall dosage_re (Str.lower name)).
Proof.
  split; [reflexivity|]. apply DosageMore.scan_dosage_tokens.
Qed.

(** X4. A name without a digit has the empty dosage key. *)
Theorem extract_dosage_no_digit (name : string) :
  Str.all Char.not_digit name = true -> extract_dosage name = "".
Proof.
  intros H. unfold extract_dosage.
  rewrite <- (app_nil_r (Str.lower name)).
  rewrite DosageFacts.findall_no_digit; [reflexivity|].
  unfold Str.lower, Char.not_digit. rewrite all_map; [exact H|].
  intros c. now rewrite CharFacts.lower_digit.
Qed.

End TextExtras.

(* ================================================================== *)
(** ** Categories and their codes *)

Module CategoryFacts.

Local Open Scope list_scope.

Lemma str_lt_trans a b c : str_lt a b -> str_lt b c -> str_lt a c.
Proof.
  unfold str_lt. intros H1 H2.
  apply String_as_OT.cmp_lt in H1. apply String_as_OT.cmp_lt in H2.
  apply String_as_OT.cmp_lt. eapply String_as_OT.lt_trans; eauto.
Qed.

Lemma str_lt_irrefl a : ~ str_lt a a.
Proof.
  unfold str_lt. intros H. apply String_as_OT.cmp_lt in H.
  apply String_as_OT.lt_not_eq in H. apply H. reflexivity.
Qed.

Lemma compare_gt x y : String.compare x y = Gt -> str_lt y x.
Proof.
  unfold str_lt. intros H. rewrite String.compare_antisym, H. reflexivity.
Qed.

Lemma str_lt_asym a b : str_lt a b -> ~ str_lt b a.
Proof. intros H1 H2. exact (str_lt_irrefl a (str_lt_trans a b a H1 H2)). Qed.

Lemma In_insert_category x z cats :
  In z (insert_category x cats) <-> z = x \/ In z cats.
Proof.
  induction cats as [|y cats IH]; simpl; [intuition|].
  destruct (String.compare x y) eqn:E; simpl.
  - apply String.compare_eq_iff in E. subst. intuition.
  - intuition.
  - rewrite IH. intuition.
Qed.

Lemma insert_category_sorted x cats :
  StronglySorted str_lt cats -> StronglySorted str_lt (insert_category x cats).
Proof.
  induction 1 as [|y cats Hs IH Hy]; simpl; [repeat constructor|].
  destruct (String.compare x y) eqn:E.
  - now constructor.
  - constructor; [now constructor|]. constructor; [exact E|].
    rewrite Forall_forall in *. intros z Hz.
    eapply str_lt_trans; [exact E | now apply Hy].
  - constructor; [exact IH|]. rewrite Forall_forall in *. intros z Hz.
    apply In_insert_category in Hz as [->|Hz]; [now apply compare_gt | auto].
Qed.

Lemma In_categories z col : In z (categories col) <-> In z col.
Proof.
  induction col as [|x col IH]; simpl; [reflexivity|].
  rewrite In_insert_category, IH. intuition.
Qed.

Lemma categories_sorted col : StronglySorted str_lt (categories col).
Proof.
  induction col as [|x col IH]; simpl;
    [constructor | now apply insert_category_sorted].
Qed.

Lemma code_of_range x cats i :
  In x cats ->
  (i <= code_of x cats i < i + Z.of_nat (List.length cats))%Z.
Proof.
  revert i; induction cats as [|y cats IH]; intros i; simpl; [tauto|].
  destruct (String.eqb_spec x y) as [->|Hn]; [lia|].
  intros [H|H]; [congruence|]. specialize (IH (i + 1)%Z H). lia.
Qed.

Lemma code_of_nth x cats i :
  In x cats ->
  nth_error cats (Z.to_nat (code_of x cats i - i)) = Some x.
Proof.
  revert i; induction cats as [|y cats IH]; intros i; simpl; [tauto|].
  destruct (String.eqb_spec x y) as [->|Hn].
  - intros _. now rewrite Z.sub_diag.
  - intros [H|H]; [congruence|].
    pose proof (code_of_range x cats (i + 1) H) as Hr.
    specialize (IH (i + 1)%Z H).
    replace (Z.to_nat (code_of x cats (i + 1) - i))
      with (S (Z.to_nat (code_of x cats (i + 1) - (i + 1)))) by lia.
    exact IH.
Qed.

Lemma code_of_lt x y cats i :
  StronglySorted str_lt cats -> In x cats -> In y cats ->
  (str_lt x y <-> (code_of x cats i < code_of y cats i)%Z).
Proof.
  intros Hs. revert i. induction Hs as [|c cats Hs IH Hc]; intros i;
    [simpl; tauto|].
  rewrite Forall_forall in Hc. cbn [code_of].
  destruct (String.eqb_spec x c) as [->|Hx];
    destruct (String.eqb_spec y c) as [->|Hy]; intros Hinx Hiny.
  - split; [intros H; now apply str_lt_irrefl in H | lia].
  - destruct Hiny as [Hiny|Hiny]; [congruence|].
    pose proof (code_of_range y cats (i + 1) Hiny) as Hr.
    split; [lia | intros _; now apply Hc].
  - destruct Hinx as [Hinx|Hinx]; [congruence|].
    pose proof (code_of_range x cats (i + 1) Hinx) as Hr.
    split; [|lia]. intros H. exfalso.
    exact (str_lt_asym _ _ H (Hc x Hinx)).
  - destruct Hinx as [Hinx|Hinx]; [congruence|].
    destruct Hiny as [Hiny|Hiny]; [congruence|].
    now apply IH.
Qed.

Lemma code_of_inj x y cats i :
  In x cats -> In y cats -> code_of x cats i = code_of y cats i -> x = y.
Proof.
  intros Hx Hy H.
  pose proof (code_of_nth x cats i Hx) as Hnx.
  pose proof (code_of_nth y cats i Hy) as Hny.
  rewrite H in Hnx. congruence.
Qed.

End CategoryFacts.

(* ================================================================== *)
(** ** Further properties of the table *)

Section LoaderExtras.

Context {pandas : Pandas}.

Local Open Scope list_scope.

Lemma load_compositions (csv : list Csv.row) :
  map Col.clean_composition (load csv) =
  map clean_composition_of (filter kept csv).
Proof. unfold load. now rewrite map_map. Qed.

(** The derived columns of a row of the table. *)
Lemma load_columns (csv : list Csv.row) (rec : Col.row) :
  In rec (load csv) ->
  Col.clean_name rec = Str.strip (Str.lower (Col.name rec)) /\
  Col.dosage rec = extract_dosage (Col.name rec) /\
  Col.drug_group rec =
    code_of (Col.clean_composition rec) (table_categories (load csv)) 0 /\
  In (Col.clean_composition rec) (table_categories (load csv)).
Proof.
  intros H. unfold table_categories. rewrite load_compositions.
  pose proof H as H'. apply load_rows in H' as (r & Hr & Hk & ->).
  repeat split. apply CategoryFacts.In_categories.
  change (Col.clean_composition (derive _ r)) with (clean_composition_of r).
  apply in_map, filter_In. split; [exact Hr|].
  unfold kept. now apply negb_true_iff, String.eqb_neq.
Qed.

(** X5. The group of a row of the table is a position in the list of
    categories, and the category at that position is the
    [clean_composition] of the row. *)
Theorem drug_group_decodes (csv : list Csv.row) (rec : Col.row) :
  In rec (load csv) ->
  (0 <= Col.drug_group rec
   < Z.of_nat (List.length (table_categories (load csv))))%Z /\
  nth_error (table_categories (load csv)) (Z.to_nat (Col.drug_group rec))
  = Some (Col.clean_composition rec).
Proof.
  intros H. apply load_columns in H as (_ & _ & -> & Hin). split.
  - pose proof (CategoryFacts.code_of_range _ _ 0 Hin). lia.
  - pose proof (CategoryFacts.code_of_nth _ _ 0 Hin) as Hn.
    now rewrite Z.sub_0_r in Hn.
Qed.

Lemma same_group_composition (csv : list Csv.row) (r1 r2 : Col.row) :
  In r1 (load csv) -> In r2 (load csv) ->
  Col.drug_group r1 = Col.drug_group r2 ->
  Col.clean_composition r1 = Col.clean_composition r2.
Proof.
  intros H1 H2.
  apply load_columns in H1 as (_ & _ & E1 & Hin1).
  apply load_columns in H2 as (_ & _ & E2 & Hin2).
  rewrite E1, E2. now apply CategoryFacts.code_of_inj.
Qed.

(** X6. Two rows of the table are in the same group exactly when they
    have the same [clean_composition]. *)
Theorem drug_group_same_composition (csv : list Csv.row) (r1 r2 : Col.row) :
  In r1 (load csv) -> In r2 (load csv) ->
  (Col.drug_group r1 = Col.drug_group r2 <->
   Col.clean_composition r1 = Col.clean_composition r2).
Proof.
  intros H1 H2. split.
  - now apply (same_group_composition csv).
  - intros E.
    apply load_columns in H1 as (_ & _ & E1 & _).
    apply load_columns in H2 as (_ & _ & E2 & _).
    now rewrite E1, E2, E.
Qed.

(** X7. The categories are the compositions of the table in strictly
    increasing order of Python strings, and the groups follow that
    order: a row has the smaller group exactly when it has the smaller
    [clean_composition]. *)
Theorem drug_group_follows_order (csv : list Csv.row) :
  StronglySorted str_lt (table_categories (load csv)) /\
  (forall c, In c (table_categories (load csv)) <->
             exists rec, In rec (load csv) /\ Col.clean_composition rec = c) /\
  forall r1 r2,
    In r1 (load csv) -> In r2 (load csv) ->
    (str_lt (Col.clean_composition r1) (Col.clean_composition r2) <->
     (Col.drug_group r1 < Col.drug_group r2)%Z).
Proof.
  split; [apply CategoryFacts.categories_sorted|]. split.
  - intros c. unfold table_categories.
    rewrite CategoryFacts.In_categories, in_map_iff.
    split; intros (rec & H1 & H2); exists rec; auto.
  - intros r1 r2 H1 H2.
    apply load_columns in H1 as (_ & _ & E1 & Hin1).
    apply load_columns in H2 as (_ & _ & E2 & Hin2).
    rewrite E1, E2.
    now apply CategoryFacts.code_of_lt;
      [apply CategoryFacts.categories_sorted | |].
Qed.

Lemma kept_iff (r : Csv.row) :
  kept r = true <->
  Str.all is_blank (fillna (Csv.short_composition1 r)) = false \/
  Str.all is_blank (fillna (Csv.short_composition2 r)) = false.
Proof.
  unfold kept, clean_composition_of.
  rewrite negb_true_iff, String.eqb_neq, clean_empty_iff.
  unfold composition_of. rewrite !TextMore.all_app.
  change (Str.all is_blank " ") with true. rewrite andb_true_l.
  destruct (Str.all is_blank (fillna (Csv.short_composition1 r)));
    destruct (Str.all is_blank (fillna (Csv.short_composition2 r)));
    simpl; intuition congruence.
Qed.

(** X8. A line of the CSV file has a row in the table exactly when one
    of its two composition cells holds a character that is neither
    whitespace nor one of ( ) [ ] , . *)
Theorem load_keeps_nonblank (csv : list Csv.row) (r : Csv.row) :
  In r csv ->
  ((exists rec,
       In rec (load csv) /\
       Col.name rec = Csv.name r /\
       Col.short_composition1 rec = Csv.short_composition1 r /\
       Col.short_composition2 rec = Csv.short_composition2 r) <->
   Str.all is_blank (fillna (Csv.short_composition1 r)) = false \/
   Str.all is_blank (fillna (Csv.short_composition2 r)) = false).
Proof.
  intros Hr. rewrite <- kept_iff. split.
  - intros (rec & Hrec & _ & H1 & H2).
    apply load_rows in Hrec as (r' & _ & Hk & ->). simpl in H1, H2.
    unfold kept, clean_composition_of, composition_of in *.
    rewrite <- H1, <- H2. now apply negb_true_iff, String.eqb_neq.
  - intros Hk.
    exists (derive (categories (map clean_composition_of (filter kept csv))) r).
    split; [|repeat split]. apply load_rows. exists r. repeat split; auto.
    unfold kept in Hk. now apply negb_true_iff, String.eqb_neq in Hk.
Qed.

End LoaderExtras.

(* ================================================================== *)
(** ** [strip] and [lower] *)

Module StripFacts.

Import StrFacts NormalFacts.

Lemma rstrip_idem (s : string) : Str.rstrip (Str.rstrip s) = Str.rstrip s.
Proof.
  induction s as [|c s IH]; [reflexivity|]. rewrite rstrip_cons.
  destruct (Str.rstrip s) as [|d t] eqn:E.
  - destruct (Char.is_space c) eqn:Hc; [reflexivity|].
    rewrite rstrip_cons. cbn [Str.rstrip]. now rewrite Hc.
  - rewrite rstrip_cons, IH. reflexivity.
Qed.

Lemma starts_rstrip (s : string) :
  Str.starts Char.is_space s = false ->
  Str.starts Char.is_space (Str.rstrip s) = false.
Proof.
  destruct s as [|c s]; [reflexivity|]. cbn [Str.starts]. intros Hc.
  rewrite rstrip_cons_not_space by exact Hc. exact Hc.
Qed.

Lemma strip_idem (s : string) : Str.strip (Str.strip s) = Str.strip s.
Proof.
  unfold Str.strip, Str.lstrip.
  rewrite (drop_while_id Char.is_space (Str.rstrip _)).
  - apply rstrip_idem.
  - apply starts_rstrip, starts_drop_while.
Qed.

Lemma rstrip_empty (s : string) :
  Str.rstrip s = "" -> Str.all Char.is_space s = true.
Proof.
  induction s as [|c s IH]; [reflexivity|]. rewrite rstrip_cons.
  destruct (Str.rstrip s); [|discriminate].
  destruct (Char.is_space c) eqn:Hc; [|discriminate].
  intros _. cbn [Str.all]. now rewrite Hc, IH.
Qed.

Lemma strip_empty_iff (s : string) :
  Str.strip s = "" <-> Str.all Char.is_space s = true.
Proof.
  split; [|apply strip_spaces]. unfold Str.strip, Str.lstrip. intros H.
  apply rstrip_empty in H.
  rewrite <- (take_drop_while Char.is_space s), TextMore.all_app.
  now rewrite all_take_while, H.
Qed.

Lemma lower_rstrip (s : string) :
  Str.lower (Str.rstrip s) = Str.rstrip (Str.lower s).
Proof.
  unfold Str.lower. induction s as [|c s IH]; [reflexivity|].
  cbn [Str.map]. rewrite !rstrip_cons, <- IH, CharFacts.lower_space.
  destruct (Str.rstrip s); cbn [Str.map]; [|reflexivity].
  now destruct (Char.is_space c).
Qed.

Lemma lower_lstrip (s : string) :
  Str.lower (Str.lstrip s) = Str.lstrip (Str.lower s).
Proof.
  unfold Str.lower, Str.lstrip. induction s as [|c s IH]; [reflexivity|].
  cbn [Str.map Str.drop_while]. rewrite CharFacts.lower_space.
  destruct (Char.is_space c); [exact IH | reflexivity].
Qed.

Lemma lower_strip (s : string) :
  Str.lower (Str.strip s) = Str.strip (Str.lower s).
Proof. unfold Str.strip. now rewrite lower_rstrip, lower_lstrip. Qed.

End StripFacts.

(* ================================================================== *)
(** ** Further properties of [recommend_alternatives] *)

Section RecommendExtras.

Context {pandas : Pandas} {model : Model}.

Local Open Scope list_scope.

Lemma sorted_length (cands : list Col.row) :
  List.length (sort_values (map project cands)) = List.length cands.
Proof.
  rewrite (Permutation_length (sort_values_perm _)). apply length_map.
Qed.

Lemma head_nonneg {A} (n : Z) (l : list A) :
  (0 <= n)%Z -> head n l = firstn (Z.to_nat n) l.
Proof. intros H. unfold head. destruct (0 <=? n)%Z eqn:E; [reflexivity|lia]. Qed.

Lemma recommend_strip (df : list Col.row) (q : string) (top_n : Z) :
  recommend_alternatives df (Str.strip q) top_n =
  recommend_alternatives df q top_n.
Proof.
  unfold recommend_alternatives.
  now rewrite StripFacts.lower_strip, StripFacts.strip_idem.
Qed.

Lemma frame_nonempty (df : list Col.row) (q : string) (top_n : Z) rows :
  (1 <= top_n)%Z ->
  recommend_alternatives df q top_n = ReturnFrame rows ->
  1 <= List.length rows /\ (Z.of_nat (List.length rows) <= top_n)%Z.
Proof.
  intros Hn H. apply recommend_frame in H as (row & g & _ & _ & Hne & ->).
  rewrite head_nonneg by lia. rewrite length_firstn, sorted_length.
  destruct (candidates df row g); [congruence|]. simpl. lia.
Qed.

(** X9. For [top_n >= 0] a returned frame has as many rows as there
    are candidates, but no more than [top_n]; for [top_n >= 1] it is
    not empty. *)
Theorem recommend_row_count
  (df : list Col.row) (q : string) (top_n : Z) (rows : list alt) :
  (0 <= top_n)%Z ->
  recommend_alternatives df q top_n = ReturnFrame rows ->
  exists row real_group,
    first_match (Str.strip (Str.lower q)) df row /\
    predict_group (Col.clean_composition row) = Ok real_group /\
    List.length rows =
      Nat.min (Z.to_nat top_n) (List.length (candidates df row real_group)) /\
    ((1 <= top_n)%Z -> rows <> []).
Proof.
  intros Hn H. apply recommend_frame in H as (row & g & Hrow & Hg & Hne & ->).
  exists row, g. split; [exact Hrow|]. split; [exact Hg|].
  rewrite head_nonneg by exact Hn.
  assert (Hlen : List.length (firstn (Z.to_nat top_n)
                                (sort_values (map project (candidates df row g))))
                 = Nat.min (Z.to_nat top_n) (List.length (candidates df row g))).
  { now rewrite length_firstn, sorted_length. }
  split; [exact Hlen|]. intros H1 Hnil. rewrite Hnil in Hlen. simpl in Hlen.
  destruct (candidates df row g); [congruence|]. simpl in Hlen. lia.
Qed.

(** X10. Asking for fewer rows gives the first rows of the longer
    answer. *)
Theorem recommend_prefix
  (df : list Col.row) (q : string) (m n : Z) (rows_m rows_n : list alt) :
  (0 <= m <= n)%Z ->
  recommend_alternatives df q m = ReturnFrame rows_m ->
  recommend_alternatives df q n = ReturnFrame rows_n ->
  rows_m = firstn (Z.to_nat m) rows_n.
Proof.
  intros Hmn Hm Hn.
  apply recommend_frame in Hm as (row & g & Hrow & Hg & _ & ->).
  apply recommend_frame in Hn as (row' & g' & Hrow' & Hg' & _ & ->).
  assert (row' = row) by (eapply first_match_unique; eauto). subst row'.
  assert (g' = g) by congruence. subst g'.
  rewrite !head_nonneg by lia. rewrite firstn_firstn. f_equal. lia.
Qed.

(** X11. The first row of a returned frame is a cheapest candidate: no
    candidate with a known price is cheaper, and when the first row has
    no price no candidate has one. *)
Theorem recommend_first_is_cheapest
  (df : list Col.row) (q : string) (top_n : Z) (a : alt) (rest : list alt) :
  recommend_alternatives df q top_n = ReturnFrame (a :: rest) ->
  exists row real_group,
    first_match (Str.strip (Str.lower q)) df row /\
    predict_group (Col.clean_composition row) = Ok real_group /\
    forall c y,
      In c (candidates df row real_group) -> Col.price c = Some y ->
      exists x, alt_price a = Some x /\ (x <= y)%Q.
Proof.
  intros H. apply recommend_frame in H as (row & g & Hrow & Hg & _ & Hrows).
  exists row, g. split; [exact Hrow|]. split; [exact Hg|].
  intros c y Hc Hy.
  destruct (FrameFacts.head_prefix top_n
              (sort_values (map project (candidates df row g)))) as [k Hk].
  rewrite Hk in Hrows.
  pose proof (sort_values_sorted (map project (candidates df row g))) as Hs.
  assert (Hin : In (project c)
                   (sort_values (map project (candidates df row g)))).
  { apply (Permutation_in _ (Permutation_sym (sort_values_perm _))).
    now apply in_map. }
  destruct (sort_values (map project (candidates df row g))) as [|b l];
    [destruct k; discriminate|].
  destruct k as [|k]; [discriminate|]. simpl in Hrows.
  injection Hrows as -> _.
  assert (Hle : by_price b (project c)).
  { inversion Hs as [|? ? _ Hall]; subst. destruct Hin as [<-|Hin].
    - unfold by_price, price_le. destruct (alt_price b); [apply Qle_refl|exact I].
    - rewrite Forall_forall in Hall. now apply Hall. }
  unfold by_price, price_le in Hle. simpl in Hle. rewrite Hy in Hle.
  destruct (alt_price b) as [x|]; [eauto | contradiction].
Qed.

(** X12. When [top_n] is at least the number of candidates, the frame
    holds every candidate once. *)
Theorem recommend_all_candidates
  (df : list Col.row) (q : string) (top_n : Z) (rows : list alt) :
  recommend_alternatives df q top_n = ReturnFrame rows ->
  exists row real_group,
    first_match (Str.strip (Str.lower q)) df row /\
    predict_group (Col.clean_composition row) = Ok real_group /\
    ((Z.of_nat (List.length (candidates df row real_group)) <= top_n)%Z ->
     Permutation rows (map project (candidates df row real_group))).
Proof.
  intros H. apply recommend_frame in H as (row & g & Hrow & Hg & _ & ->).
  exists row, g. split; [exact Hrow|]. split; [exact Hg|]. intros Hn.
  rewrite head_nonneg by lia.
  rewrite firstn_all2 by (rewrite sorted_length; lia).
  apply sort_values_perm.
Qed.

(** X13. Blank space around the query and the case of its letters make
    no difference. *)
Theorem recommend_query_normalised
  (df : list Col.row) (q : string) (top_n : Z) :
  recommend_alternatives df (Str.strip q) top_n =
    recommend_alternatives df q top_n /\
  recommend_alternatives df (Str.lower q) top_n =
    recommend_alternatives df q top_n.
Proof.
  split; [apply recommend_strip|].
  unfold recommend_alternatives. now rewrite TextMore.lower_idem.
Qed.

(** X15. An exception leaves [recommend_alternatives] exactly when a
    row matches the query and the prediction for the first such row
    raises it. *)
Theorem recommend_raises_iff
  (df : list Col.row) (q : string) (top_n : Z) (e : exn) :
  recommend_alternatives df q top_n = Raises e <->
  exists row,
    first_match (Str.strip (Str.lower q)) df row /\
    predict_group (Col.clean_composition row) = Raise e.
Proof.
  split.
  - unfold recommend_alternatives.
    destruct (matches df _) as [|row ms] eqn:E; [discriminate|].
    apply matches_first in E. intros H. exists row. split; [exact E|].
    unfold alternatives_for in H.
    destruct (predict_group (Col.clean_composition row)) as [g|e'].
    + destruct (map project (candidates df row g)); discriminate.
    + congruence.
  - intros (row & Hrow & He).
    rewrite (recommend_first_match df q top_n row Hrow).
    now apply alternatives_for_raise.
Qed.

(** X14. On a table built by the start-up code, the rows of a returned
    frame all have the same composition, each has the dosage key of the
    reference row, and none has a name whose lower-cased, stripped form
    is the [clean_name] of the reference row. *)
Theorem recommend_alternatives_agree
  (csv : list Csv.row) (q : string) (top_n : Z) (rows : list alt) :
  recommend_alternatives (load csv) q top_n = ReturnFrame rows ->
  exists row,
    first_match (Str.strip (Str.lower q)) (load csv) row /\
    (forall a b, In a rows -> In b rows ->
                 alt_clean_composition a = alt_clean_composition b) /\
    (forall a, In a rows ->
               extract_dosage (alt_name a) = Col.dosage row /\
               Str.strip (Str.lower (alt_name a)) <> Col.clean_name row).
Proof.
  intros H. apply recommend_frame in H as (row & g & Hrow & _ & _ & ->).
  exists row. split; [exact Hrow|].
  assert (Hsrc : forall a,
             In a (head top_n (sort_values
                                 (map project (candidates (load csv) row g)))) ->
             exists r, In r (load csv) /\ alternative_of row g r /\
                       a = project r).
  { intros a Ha. apply frame_rows in Ha as (r & Hr & ->).
    apply candidates_spec in Hr as [Hr Halt]. eauto. }
  split.
  - intros a b Ha Hb.
    apply Hsrc in Ha as (ra & Hra & (Hga & _) & ->).
    apply Hsrc in Hb as (rb & Hrb & (Hgb & _) & ->).
    cbn [project alt_clean_composition].
    apply (same_group_composition csv ra rb Hra Hrb). congruence.
  - intros a Ha. apply Hsrc in Ha as (r & Hr & (_ & Hd & Hn) & ->).
    cbn [project alt_name].
    apply load_columns in Hr as (Hcn & Hdo & _). split; congruence.
Qed.

End RecommendExtras.

(* ================================================================== *)
(** ** Properties of the page *)

Section PageExtras.

Context {pandas : Pandas} {model : Model}.

Local Open Scope list_scope.

Lemma script_pressed (df : list Col.row) (text : string) (top_n : Z) :
  Str.all Char.is_space text = false ->
  script df true text top_n =
  match recommend_alternatives df text top_n with
  | ReturnNone => Some (ShowError (Str.strip text))
  | ReturnFrame [] => Some (ShowError (Str.strip text))
  | ReturnFrame ((_ :: _) as results) =>
      Some (ShowResults (Str.strip text) (List.length results) results)
  | Raises e => Some (ShowException e)
  end.
Proof.
  intros Hb. unfold script.
  destruct (String.eqb_spec (Str.strip text) "") as [E|_].
  - apply StripFacts.strip_empty_iff in E. congruence.
  - now rewrite recommend_strip.
Qed.

(** X16. With the button pressed, the page shows the warning exactly
    when the text box holds nothing but whitespace; then the outcome
    does not depend on the table, the classifier or the slider. *)
Theorem script_warning_iff (df : list Col.row) (text : string) (top_n : Z) :
  script df true text top_n = Some ShowWarning <->
  Str.all Char.is_space text = true.
Proof.
  split.
  - intros H. destruct (Str.all Char.is_space text) eqn:Hb; [reflexivity|].
    rewrite (script_pressed df text top_n Hb) in H.
    destruct (recommend_alternatives df text top_n) as [|[|a rows]|e];
      discriminate.
  - intros H. apply StripFacts.strip_empty_iff in H.
    unfold script. now rewrite H.
Qed.

(** X17. With the button pressed, a value of the slider and a text that
    is not blank, the page shows the error exactly when
    [recommend_alternatives] returns [None] for the text, the results
    exactly when it returns a frame, and an exception exactly when one
    leaves it; the number of results shown is the number of rows of the
    frame, at least 1 and at most the value of the slider. *)
Theorem script_shows_outcome (df : list Col.row) (text : string) (top_n : Z) :
  slider_value top_n ->
  Str.all Char.is_space text = false ->
  (script df true text top_n = Some (ShowError (Str.strip text)) <->
   recommend_alternatives df text top_n = ReturnNone) /\
  (forall count cards,
      script df true text top_n
      = Some (ShowResults (Str.strip text) count cards) <->
      recommend_alternatives df text top_n = ReturnFrame cards /\
      count = List.length cards) /\
  (forall medicine_input count cards,
      script df true text top_n
      = Some (ShowResults medicine_input count cards) ->
      1 <= count <= 20 /\ (Z.of_nat count <= top_n)%Z) /\
  (forall e,
      script df true text top_n = Some (ShowException e) <->
      recommend_alternatives df text top_n = Raises e).
Proof.
  intros [Hlo Hhi] Hb. rewrite (script_pressed df text top_n Hb).
  destruct (recommend_alternatives df text top_n) as [|rows|e] eqn:E.
  - split; [tauto|]. split; [|split].
    + intros count cards. split; [discriminate | intros [H _]; discriminate].
    + discriminate.
    + intros e. split; discriminate.
  - pose proof (frame_nonempty df text top_n rows Hlo E) as [H1 H2].
    destruct rows as [|a rows]; [simpl in H1; lia|].
    split; [split; discriminate|]. split; [|split].
    + intros count cards. split.
      * intros H. injection H as Hc Hk. subst count cards.
        split; reflexivity.
      * intros [H ->]. injection H as Hk. subst cards. reflexivity.
    + intros mi count cards H. injection H; intros; subst mi count cards.
      cbn [List.length] in *. lia.
    + intros e. split; discriminate.
  - split; [split; discriminate|]. split; [|split].
    + intros count cards. split; [discriminate | intros [H _]; discriminate].
    + discriminate.
    + intros e'. split; congruence.
Qed.

End PageExtras.

(* ================================================================== *)
(** ** The table and the classifier together *)

Section TableExtras.

Context {pandas : Pandas} {model : Model}.

Local Open Scope list_scope.

Lemma some_match (df : list Col.row) (key : string) (r : Col.row) :
  In r df -> is_substring key (Col.clean_name r) ->
  exists row, first_match key df row.
Proof.
  intros Hr Hsub. destruct (matches df key) as [|row ms] eqn:E.
  - exfalso. rewrite matches_nil in E. exact (E r Hr Hsub).
  - exists row. eapply matches_first; eauto.
Qed.

(** X18. A query that is the name of a row of the table always has a
    reference row: the first row of the table whose [clean_name]
    contains the [clean_name] of that row. *)
Theorem recommend_exact_name
  (csv : list Csv.row) (rec : Col.row) (top_n : Z) :
  In rec (load csv) ->
  exists row,
    first_match (Col.clean_name rec) (load csv) row /\
    is_substring (Col.clean_name rec) (Col.clean_name row) /\
    recommend_alternatives (load csv) (Col.name rec) top_n =
    alternatives_for (load csv) row top_n.
Proof.
  intros Hrec. pose proof (load_columns csv rec Hrec) as (Hcn & _).
  destruct (some_match (load csv) (Col.clean_name rec) rec Hrec) as [row Hrow].
  { exists "", "". now rewrite StrFacts.app_nil_r. }
  exists row. split; [exact Hrow|]. split.
  - now destruct Hrow as (_ & _ & _ & Hsub & _).
  - apply recommend_first_match. now rewrite <- Hcn.
Qed.

(** X19. When the label the classifier gives for the reference row is
    not the position of a category of the table, the answer is
    [None]. *)
Theorem recommend_label_out_of_range
  (csv : list Csv.row) (q : string) (top_n : Z) (row : Col.row)
  (real_group : Z) :
  first_match (Str.strip (Str.lower q)) (load csv) row ->
  predict_group (Col.clean_composition row) = Ok real_group ->
  (real_group < 0 \/
   Z.of_nat (List.length (table_categories (load csv))) <= real_group)%Z ->
  recommend_alternatives (load csv) q top_n = ReturnNone.
Proof.
  intros Hrow Hg Hout.
  rewrite (recommend_first_match _ q top_n row Hrow).
  rewrite (alternatives_for_ok _ row top_n real_group Hg).
  assert (Hnil : candidates (load csv) row real_group = []).
  { apply candidates_nil. intros r Hr (Hgr & _).
    apply load_columns in Hr as (_ & _ & Hcode & Hin).
    pose proof (CategoryFacts.code_of_range _ _ 0 Hin) as Hrange.
    rewrite <- Hcode, Hgr in Hrange. lia. }
  now rewrite Hnil.
Qed.

(** X20. When the label the classifier gives for the reference row is
    the group of that row, every row of the returned frame has the
    composition of the reference row. *)
Theorem recommend_same_composition
  (csv : list Csv.row) (q : string) (top_n : Z) (row : Col.row)
  (rows : list alt) :
  first_match (Str.strip (Str.lower q)) (load csv) row ->
  predict_group (Col.clean_composition row) = Ok (Col.drug_group row) ->
  recommend_alternatives (load csv) q top_n = ReturnFrame rows ->
  forall a, In a rows ->
            alt_clean_composition a = Col.clean_composition row.
Proof.
  intros Hrow Hg H a Ha.
  apply recommend_frame in H as (row' & g & Hrow' & Hg' & _ & ->).
  assert (row' = row) by (eapply first_match_unique; eauto). subst row'.
  assert (g = Col.drug_group row) by congruence. subst g.
  apply frame_rows in Ha as (r & Hr & ->).
  apply candidates_spec in Hr as (Hr & Hgr & _).
  cbn [project alt_clean_composition].
  apply (same_group_composition csv r row Hr); [|exact Hgr].
  destruct Hrow as (pre & post & E & _). rewrite E.
  apply in_or_app. right. now left.
Qed.

End TableExtras.

(* ================================================================== *)
(** ** The further properties on the small table *)

Module Demo.

Definition run : string -> Z -> outcome :=
  recommend_alternatives (pandas := Reference.pandas)
    (model := Reference.good_model) Reference.df.

(** A classifier trained on another table: its label for paracetamol
    is not a position among the two categories of this one. *)
Definition stale_model : Model := Sample.table_model [("paracetamol", 7%Z)].

Definition blank_row : Col.row :=
  derive (pandas := Reference.pandas) [] (Csv.Row "" None None None).

Definition paracetamol : Col.row := nth 0 Reference.df blank_row.

Definition crocin_row : Col.row := nth 1 Reference.df blank_row.

Definition crocin : alt := Alt "Crocin 500mg" "paracetamol" (Some 8%Q).

Definition pacimol : alt := Alt "Pacimol 500mg" "paracetamol" (Some 9%Q).

Definition calpol : alt := Alt "Calpol 500mg" "paracetamol" None.

Lemma in_paracetamol : In paracetamol Reference.df.
Proof. vm_compute. left. reflexivity. Defined.

Lemma in_crocin : In crocin_row Reference.df.
Proof. vm_compute. right. left. reflexivity. Defined.

Lemma first_match_paracetamol :
  first_match (Str.strip (Str.lower "Paracetamol 500mg")) Reference.df
    paracetamol.
Proof.
  exists [], (tl Reference.df). split; [vm_compute; reflexivity|]. split.
  - exists "", "". vm_compute. reflexivity.
  - intros r [].
Defined.

Lemma run_two : run "Paracetamol 500mg" 2 = ReturnFrame [crocin; pacimol].
Proof. vm_compute. reflexivity. Defined.

Lemma run_five :
  run "Paracetamol 500mg" 5 = ReturnFrame [crocin; pacimol; calpol].
Proof. vm_compute. reflexivity. Defined.

End Demo.

Lemma extract_dosage_no_digit_witness : extract_dosage "Vitamin C Tablet" = "".
Proof. apply extract_dosage_no_digit. reflexivity. Defined.

Lemma drug_group_decodes_witness :
  nth_error (table_categories Reference.df)
            (Z.to_nat (Col.drug_group Demo.paracetamol))
  = Some (Col.clean_composition Demo.paracetamol).
Proof.
  apply (drug_group_decodes (pandas := Reference.pandas) Reference.csv
           Demo.paracetamol Demo.in_paracetamol).
Defined.

Lemma drug_group_same_composition_witness :
  Col.drug_group Demo.paracetamol = Col.drug_group Demo.crocin_row <->
  Col.clean_composition Demo.paracetamol
  = Col.clean_composition Demo.crocin_row.
Proof.
  apply (drug_group_same_composition (pandas := Reference.pandas)
           Reference.csv _ _ Demo.in_paracetamol Demo.in_crocin).
Defined.

Lemma load_keeps_nonblank_witness :
  (exists rec,
      In rec Reference.df /\
      Col.name rec = "Unlabelled 500mg" /\
      Col.short_composition1 rec = None /\
      Col.short_composition2 rec = None) <->
  Str.all is_blank "" = false \/ Str.all is_blank "" = false.
Proof.
  apply (load_keeps_nonblank (pandas := Reference.pandas) Reference.csv
           (Csv.Row "Unlabelled 500mg" None None (Some "3"))).
  vm_compute. do 5 right. left. reflexivity.
Defined.

Lemma recommend_row_count_witness :
  exists row real_group,
    first_match (Str.strip (Str.lower "Paracetamol 500mg")) Reference.df row /\
    predict_group (model := Reference.good_model) (Col.clean_composition row)
    = Ok real_group /\
    List.length [Demo.crocin; Demo.pacimol] =
      Nat.min (Z.to_nat 2)
        (List.length (candidates Reference.df row real_group)) /\
    ((1 <= 2)%Z -> [Demo.crocin; Demo.pacimol] <> []).
Proof.
  apply (recommend_row_count (pandas := Reference.pandas)
           (model := Reference.good_model) Reference.df
           "Paracetamol 500mg" 2 [Demo.crocin; Demo.pacimol]).
  - lia.
  - exact Demo.run_two.
Defined.

Lemma recommend_prefix_witness :
  [Demo.crocin; Demo.pacimol]
  = firstn 2 [Demo.crocin; Demo.pacimol; Demo.calpol].
Proof.
  apply (recommend_prefix (pandas := Reference.pandas)
           (model := Reference.good_model) Reference.df
           "Paracetamol 500mg" 2 5).
  - lia.
  - exact Demo.run_two.
  - exact Demo.run_five.
Defined.

Lemma recommend_first_is_cheapest_witness :
  exists row real_group,
    first_match (Str.strip (Str.lower "Paracetamol 500mg")) Reference.df row /\
    predict_group (model := Reference.good_model) (Col.clean_composition row)
    = Ok real_group /\
    forall c y,
      In c (candidates Reference.df row real_group) ->
      Col.price c = Some y ->
      exists x, alt_price Demo.crocin = Some x /\ (x <= y)%Q.
Proof.
  apply (recommend_first_is_cheapest (pandas := Reference.pandas)
           (model := Reference.good_model) Reference.df
           "Paracetamol 500mg" 5 Demo.crocin [Demo.pacimol; Demo.calpol]).
  exact Demo.run_five.
Defined.

Lemma recommend_all_candidates_witness :
  exists row real_group,
    first_match (Str.strip (Str.lower "Paracetamol 500mg")) Reference.df row /\
    predict_group (model := Reference.good_model) (Col.clean_composition row)
    = Ok real_group /\
    ((Z.of_nat (List.length (candidates Reference.df row real_group)) <= 5)%Z ->
     Permutation [Demo.crocin; Demo.pacimol; Demo.calpol]
                 (map project (candidates Reference.df row real_group))).
Proof.
  apply (recommend_all_candidates (pandas := Reference.pandas)
           (model := Reference.good_model) Reference.df
           "Paracetamol 500mg" 5).
  exact Demo.run_five.
Defined.

Lemma recommend_alternatives_agree_witness :
  exists row,
    first_match (Str.strip (Str.lower "Paracetamol 500mg")) Reference.df row /\
    (forall a b,
        In a [Demo.crocin; Demo.pacimol; Demo.calpol] ->
        In b [Demo.crocin; Demo.pacimol; Demo.calpol] ->
        alt_clean_composition a = alt_clean_composition b) /\
    (forall a,
        In a [Demo.crocin; Demo.pacimol; Demo.calpol] ->
        extract_dosage (alt_name a) = Col.dosage row /\
        Str.strip (Str.lower (alt_name a)) <> Col.clean_name row).
Proof.
  apply (recommend_alternatives_agree (pandas := Reference.pandas)
           (model := Reference.good_model) Reference.csv
           "Paracetamol 500mg" 5).
  exact Demo.run_five.
Defined.

Lemma script_shows_outcome_witness :
  script (pandas := Reference.pandas) (model := Reference.good_model)
    Reference.df true " Paracetamol 500mg " 2
  = Some (ShowResults "Paracetamol 500mg" 2 [Demo.crocin; Demo.pacimol]).
Proof.
  destruct (script_shows_outcome (pandas := Reference.pandas)
              (model := Reference.good_model) Reference.df
              " Paracetamol 500mg " 2) as (_ & H & _).
  - unfold slider_value. lia.
  - reflexivity.
  - apply (H 2 [Demo.crocin; Demo.pacimol]). split.
    + vm_compute. reflexivity.
    + reflexivity.
Defined.

Lemma recommend_exact_name_witness :
  exists row,
    first_match (Col.clean_name Demo.crocin_row) Reference.df row /\
    is_substring (Col.clean_name Demo.crocin_row) (Col.clean_name row) /\
    recommend_alternatives (pandas := Reference.pandas)
      (model := Reference.good_model) Reference.df
      (Col.name Demo.crocin_row) 5
    = alternatives_for (pandas := Reference.pandas)
        (model := Reference.good_model) Reference.df row 5.
Proof.
  apply (recommend_exact_name (pandas := Reference.pandas)
           (model := Reference.good_model) Reference.csv
           Demo.crocin_row 5 Demo.in_crocin).
Defined.

Lemma recommend_label_out_of_range_witness :
  recommend_alternatives (pandas := Reference.pandas)
    (model := Demo.stale_model) Reference.df "Paracetamol 500mg" 5
  = ReturnNone.
Proof.
  apply (recommend_label_out_of_range (pandas := Reference.pandas)
           (model := Demo.stale_model) Reference.csv "Paracetamol 500mg" 5
           Demo.paracetamol 7 Demo.first_match_paracetamol).
  - vm_compute. reflexivity.
  - right. vm_compute. discriminate.
Defined.

Lemma recommend_same_composition_witness :
  alt_clean_composition Demo.calpol = "paracetamol".
Proof.
  apply (recommend_same_composition (pandas := Reference.pandas)
           (model := Reference.good_model) Reference.csv
           "Paracetamol 500mg" 5 Demo.paracetamol
           [Demo.crocin; Demo.pacimol; Demo.calpol]
           Demo.first_match_paracetamol).
  - vm_compute. reflexivity.
  - exact Demo.run_five.
  - right. right. left. reflexivity.
Defined.

(* ================================================================== *)
(** ** The price column *)

Section StartupFacts.

Context {pandas : Pandas}.

Local Open Scope list_scope.

Lemma traverse_ok {A B : Type} (f : A -> res B) (g : A -> B) (l : list A) :
  (forall x, In x l -> f x = Ok (g x)) -> traverse f l = Ok (map g l).
Proof.
  induction l as [|x l IH]; intros H; [reflexivity|]. cbn [traverse map].
  rewrite (H x) by (now left). rewrite IH; [reflexivity|].
  intros y Hy. apply H. now right.
Qed.

Lemma traverse_raise {A B : Type} (f : A -> res B) (l : list A) x e :
  In x l -> f x = Raise e ->
  (forall y, In y l -> f y = Raise e \/ exists b, f y = Ok b) ->
  traverse f l = Raise e.
Proof.
  induction l as [|y l IH]; intros Hx Hfx Hall; [contradiction|].
  cbn [traverse]. destruct (Hall y (or_introl eq_refl)) as [Hy | [b Hy]];
    rewrite Hy; [reflexivity|].
  destruct Hx as [->|Hx]; [congruence|].
  rewrite IH; auto. intros z Hz. apply Hall. now right.
Qed.

Lemma combine_map_r {A B : Type} (g : A -> B) (l : list A) :
  combine l (map g l) = map (fun x => (x, g x)) l.
Proof. induction l; simpl; congruence. Qed.


(** [errors="coerce"] never raises: every cell becomes a number or NaN. *)
Lemma pd_to_numeric_coerce (col : list (option string)) :
  pd_to_numeric ErrorsCoerce col = Ok (map to_numeric col).
Proof.
  apply traverse_ok. intros [s|] _; [|reflexivity].
  unfold to_numeric_cell, to_numeric. now destruct (to_float s).
Qed.

(** [errors="raise"] raises on a column with a text that is no number. *)
Lemma pd_to_numeric_raise (col : list (option string)) (s : string) :
  In (Some s) col -> to_float s = None ->
  pd_to_numeric ErrorsRaise col
  = Raise (Exception "Unable to parse string").
Proof.
  intros Hin Hs. apply (traverse_raise _ col (Some s)); [exact Hin | |].
  - unfold to_numeric_cell. now rewrite Hs.
  - intros [t|] _; unfold to_numeric_cell; [|eauto].
    destruct (to_float t); eauto.
Qed.

Lemma kept_typed (r : RawCsv.row) : kept (typed r) = raw_kept r.
Proof. reflexivity. Qed.



(** A kept line without a name stops the start-up code at line 53. *)
Lemma load_checked_nameless (raw : list RawCsv.row) (r : RawCsv.row) :
  In r raw -> raw_kept r = true -> RawCsv.name r = None ->
  load_checked raw
  = Raise (Exception "'float' object has no attribute 'lower'").
Proof.
  intros Hr Hk Hn. unfold load_checked.
  rewrite pd_to_numeric_coerce, map_map, combine_map_r.
  apply (traverse_raise _ _ (r, to_numeric (RawCsv.price r))).
  - apply filter_In. split; [|exact Hk].
    apply in_map_iff. now exists r.
  - unfold build_row. cbn [fst]. now rewrite Hn.
  - intros rp _. unfold build_row. destruct (RawCsv.name (fst rp)); eauto.
Qed.


End StartupFacts.



(** C2: the length bound fails for [top_n = -2]; of the three
    alternatives one is returned, and 1 is not at most -2. *)
Lemma length_bound_counterexample :
  recommend_alternatives (pandas := Reference.pandas)
    (model := Reference.good_model) Reference.df "Paracetamol 500mg" (-2)
  = ReturnFrame [Demo.crocin] /\
  ~ (Z.of_nat (List.length [Demo.crocin]) <= -2)%Z.
Proof.
  split; [vm_compute; reflexivity|]. simpl. lia.
Qed.
